(** * btc-script-builder: script compiler, UTXO selection, funding and unlock
    builders, and the script registry.

    The development follows the TypeScript sources: [lib/scriptUtils.ts] in
    its revision with the registry ([saveTrackedScript], [getTrackedScripts],
    [markScriptAsSpent], [selectUtxos], [parseScript],
    [createScriptTransaction]), [hooks/api.ts] ([getUtxos], [pushTx]) and
    [components/ScriptManager.tsx] in its single-UTXO revision
    ([unlockScript]).

    Conventions of the embedding.
    - A JavaScript number holding a satoshi amount, a count or a parsed
      decimal literal is a [Z]; the embedding is exact for magnitudes below
      2^53, where doubles represent every integer.
    - A JavaScript string is a [string]: a sequence of code units below 256.
    - A [Buffer] is a list of bytes.
    - A thrown [Error] is the left injection carrying its message.
    - Asynchronous calls are sequential in the sources ([await] at every
      call); they are modelled by their results. *)

From Stdlib Require Import ZArith Lia Strings.Byte Ascii String List Sorted Permutation.
From stdpp Require Import base numbers list strings gmap pretty.

Local Open Scope string_scope.
Local Open Scope Z_scope.

(** ** JavaScript primitives used by the sources *)

Module JS.

Definition Buffer := list byte.

(** [Error(message)]; [result A] is a computation that may throw. *)
Definition Error := string.
Definition result (A : Type) : Type := Error + A.

Definition throw {A} (msg : string) : result A := inl msg.

#[export] Instance result_ret : MRet result := fun A a => inr a.
#[export] Instance result_bind : MBind result := fun A B k m =>
  match m with
  | inl e => inl e
  | inr a => k a
  end.

(** [s.startsWith(p)] *)
Definition startsWith (s p : string) : bool := String.prefix p s.

(** [s.slice(n)] for [0 <= n]. *)
Fixpoint slice (n : nat) (s : string) : string :=
  match n, s with
  | O, _ => s
  | S n', String _ s' => slice n' s'
  | S _, EmptyString => EmptyString
  end.

(** [hay.includes(needle)] *)
Fixpoint includes (hay needle : string) : bool :=
  String.prefix needle hay ||
  match hay with
  | EmptyString => false
  | String _ hay' => includes hay' needle
  end.

(** White space of [String.prototype.trim] among code units below 256:
    TAB, LF, VT, FF, CR, SPACE and NBSP. *)
Definition is_space (c : ascii) : bool :=
  let n := N_of_ascii c in
  ((9 <=? n) && (n <=? 13) || (n =? 32) || (n =? 160))%N.

Fixpoint trimStart (s : string) : string :=
  match s with
  | String c s' => if is_space c then trimStart s' else s
  | EmptyString => EmptyString
  end.

Fixpoint trimEnd (s : string) : string :=
  match s with
  | String c s' =>
      match trimEnd s' with
      | EmptyString => if is_space c then EmptyString else String c EmptyString
      | r => String c r
      end
  | EmptyString => EmptyString
  end.

Definition trim (s : string) : string := trimEnd (trimStart s).

Definition is_newline (c : ascii) : bool := (N_of_ascii c =? 10)%N.

(** [s.split("\n")] *)
Fixpoint split_lines (s : string) : list string :=
  match s with
  | EmptyString => [EmptyString]
  | String c s' =>
      if is_newline c then EmptyString :: split_lines s'
      else match split_lines s' with
           | l :: ls => String c l :: ls
           | [] => [String c EmptyString]
           end
  end.

Definition digit_val (c : ascii) : option Z :=
  let n := N_of_ascii c in
  if ((48 <=? n) && (n <=? 57))%N then Some (Z.of_N n - 48) else None.

Definition is_digit (c : ascii) : bool :=
  match digit_val c with Some _ => true | None => false end.

Fixpoint all_digits (s : string) : bool :=
  match s with
  | EmptyString => true
  | String c s' => is_digit c && all_digits s'
  end.

(** The regular expression [/^\d+$/]: one or more digits, nothing else. *)
Definition matches_digits (s : string) : bool :=
  match s with
  | EmptyString => false
  | _ => all_digits s
  end.

(** [parseInt(s)] on a string that begins with digits: the value of the
    longest digit prefix, read in base ten. *)
Fixpoint parseInt_from (acc : Z) (s : string) : Z :=
  match s with
  | EmptyString => acc
  | String c s' =>
      match digit_val c with
      | Some d => parseInt_from (10 * acc + d) s'
      | None => acc
      end
  end.

Definition parseInt (s : string) : Z := parseInt_from 0 s.

(** A number interpolated in a template literal. *)
Definition show (n : Z) : string := pretty n.

(** [ToInt32]: the operand conversion of [&], [|] and [>>]. *)
Definition toInt32 (x : Z) : Z := ((x + 2147483648) mod 4294967296) - 2147483648.

Definition band (x y : Z) : Z := Z.land (toInt32 x) (toInt32 y).
Definition bor (x y : Z) : Z := Z.lor (toInt32 x) (toInt32 y).
Definition sar (x : Z) (n : Z) : Z := Z.shiftr (toInt32 x) n.

(** Storing a number into a [Uint8Array] cell keeps it modulo 256. *)
Definition byte_of_Z (z : Z) : byte :=
  match Byte.of_N (Z.to_N (z mod 256)) with
  | Some b => b
  | None => x00
  end.

Definition Z_of_byte (b : byte) : Z := Z.of_N (Byte.to_N b).

Definition hex_val (c : ascii) : option Z :=
  let n := N_of_ascii c in
  if ((48 <=? n) && (n <=? 57))%N then Some (Z.of_N n - 48)
  else if ((97 <=? n) && (n <=? 102))%N then Some (Z.of_N n - 87)
  else if ((65 <=? n) && (n <=? 70))%N then Some (Z.of_N n - 55)
  else None.

(** [Buffer.from(s, "hex")]: two hex digits per byte; decoding stops,
    without an error, at the first pair that is not two hex digits, and a
    trailing single character is dropped.  (This is the decoder of Node; the
    [buffer] package bundled for browsers also returns without an error, and
    differs only in reading some malformed pairs, such as a hex digit
    followed by another character, as a byte.) *)
Fixpoint Buffer_from_hex (s : string) : Buffer :=
  match s with
  | String a (String b rest) =>
      match hex_val a, hex_val b with
      | Some h, Some l => byte_of_Z (16 * h + l) :: Buffer_from_hex rest
      | _, _ => []
      end
  | _ => []
  end.

(** [Buffer.from(s, "utf8")] on code units below 256: one byte below 128,
    two bytes from 128 on. *)
Definition utf8_unit (c : ascii) : Buffer :=
  let n := Z.of_N (N_of_ascii c) in
  if n <? 128 then [byte_of_Z n]
  else [byte_of_Z (Z.lor 192 (Z.shiftr n 6)); byte_of_Z (Z.lor 128 (Z.land n 63))].

Fixpoint Buffer_from_utf8 (s : string) : Buffer :=
  match s with
  | EmptyString => []
  | String c s' => (utf8_unit c ++ Buffer_from_utf8 s')%list
  end.

End JS.

Import JS.

(** ** The script registry ([lib/scriptUtils.ts]) *)

Record TrackedScript := mkTrackedScript {
  id : string;
  scriptAddress : string;
  originalScript : string;
  compiledScript : string;
  createdAt : Z;
  createdBy : string;
  fundingTxid : string;
  amount : Z;
  isSpent : bool
}.

(** What a [localStorage] item holds: the JSON text of an array of records,
    written by the registry itself, or a text that [JSON.parse] rejects. *)
Inductive Stored :=
| Json (scripts : list TrackedScript)
| NotJson (text : string).

(** [None] is a context without [window] (server-side rendering). *)
Definition Storage := option (gmap string Stored).

Definition TRACKED_SCRIPTS_KEY : string := "btc_tracked_scripts".

Definition getTrackedScripts (st : Storage) : list TrackedScript :=
  match st with
  | None => []
  | Some ls =>
      match ls !! TRACKED_SCRIPTS_KEY with
      | Some (Json scripts) => scripts
      | Some (NotJson _) => []
      | None => []
      end
  end.

Definition saveTrackedScript (script : TrackedScript) (st : Storage) : Storage :=
  match st with
  | None => None
  | Some ls =>
      let existingScripts := getTrackedScripts st in
      let updatedScripts := (existingScripts ++ [script])%list in
      Some (<[TRACKED_SCRIPTS_KEY := Json updatedScripts]> ls)
  end.

Definition getTrackedScriptsByWallet (walletAddress : string) (st : Storage)
  : list TrackedScript :=
  List.filter (fun script => String.eqb (createdBy script) walletAddress)
              (getTrackedScripts st).

(** [{ ...script, isSpent: true }] *)
Definition with_spent (script : TrackedScript) : TrackedScript :=
  {| id := id script;
     scriptAddress := scriptAddress script;
     originalScript := originalScript script;
     compiledScript := compiledScript script;
     createdAt := createdAt script;
     createdBy := createdBy script;
     fundingTxid := fundingTxid script;
     amount := amount script;
     isSpent := true |}.

Definition mark_one (addr : string) (script : TrackedScript) : TrackedScript :=
  if String.eqb (scriptAddress script) addr then with_spent script else script.

Definition markScriptAsSpent (addr : string) (st : Storage) : Storage :=
  match st with
  | None => None
  | Some ls =>
      let scripts := getTrackedScripts st in
      let updatedScripts := List.map (mark_one addr) scripts in
      Some (<[TRACKED_SCRIPTS_KEY := Json updatedScripts]> ls)
  end.

(** ** UTXO selection ([lib/scriptUtils.ts]) *)

Record Utxo := mkUtxo {
  txid : string;
  vout : nat;
  value : Z
}.

(** [[...utxos].sort((a, b) => b.value - a.value)]: the stable sort in
    descending order of value.  An element is placed in front of the first
    element that is not strictly larger, so equal values keep their order. *)
Fixpoint insert_desc (u : Utxo) (l : list Utxo) : list Utxo :=
  match l with
  | [] => [u]
  | v :: l' => if value u <? value v then v :: insert_desc u l' else u :: l
  end.

Definition sort_desc (utxos : list Utxo) : list Utxo :=
  foldr insert_desc [] utxos.

(** The [for ... of] loop of [selectUtxos], with its two accumulators. *)
Fixpoint select_loop (sortedUtxos : list Utxo) (targetAmount : Z)
    (selectedUtxos : list Utxo) (totalValue : Z) : list Utxo * Z :=
  match sortedUtxos with
  | [] => (selectedUtxos, totalValue)
  | utxo :: rest =>
      if targetAmount <=? totalValue then (selectedUtxos, totalValue)
      else select_loop rest targetAmount
             (selectedUtxos ++ [utxo])%list (totalValue + value utxo)
  end.

Definition selectUtxos (utxos : list Utxo) (targetAmount : Z)
  : result (list Utxo * Z) :=
  let sortedUtxos := sort_desc utxos in
  let '(selectedUtxos, totalValue) := select_loop sortedUtxos targetAmount [] 0 in
  if totalValue <? targetAmount
  then throw "Insufficient UTXOs to cover the target amount"
  else mret (selectedUtxos, totalValue).

Definition sum_values (utxos : list Utxo) : Z :=
  foldr (fun u acc => value u + acc) 0 utxos.

(** ** The parts of bitcoinjs-lib the compiler calls

    These are library functions, not code of this repository; they are
    written here the way the library computes them so that [parseScript]
    can be run. *)

Module Bitcoin.

(** The library's opcode table. *)
Definition opcodes : list (string * Z) :=
  [ ("OP_FALSE", 0); ("OP_0", 0); ("OP_PUSHDATA1", 76); ("OP_PUSHDATA2", 77);
    ("OP_PUSHDATA4", 78); ("OP_1NEGATE", 79); ("OP_RESERVED", 80);
    ("OP_TRUE", 81); ("OP_1", 81); ("OP_2", 82); ("OP_3", 83); ("OP_4", 84);
    ("OP_5", 85); ("OP_6", 86); ("OP_7", 87); ("OP_8", 88); ("OP_9", 89);
    ("OP_10", 90); ("OP_11", 91); ("OP_12", 92); ("OP_13", 93); ("OP_14", 94);
    ("OP_15", 95); ("OP_16", 96); ("OP_NOP", 97); ("OP_VER", 98); ("OP_IF", 99);
    ("OP_NOTIF", 100); ("OP_VERIF", 101); ("OP_VERNOTIF", 102);
    ("OP_ELSE", 103); ("OP_ENDIF", 104); ("OP_VERIFY", 105);
    ("OP_RETURN", 106); ("OP_TOALTSTACK", 107); ("OP_FROMALTSTACK", 108);
    ("OP_2DROP", 109); ("OP_2DUP", 110); ("OP_3DUP", 111); ("OP_2OVER", 112);
    ("OP_2ROT", 113); ("OP_2SWAP", 114); ("OP_IFDUP", 115); ("OP_DEPTH", 116);
    ("OP_DROP", 117); ("OP_DUP", 118); ("OP_NIP", 119); ("OP_OVER", 120);
    ("OP_PICK", 121); ("OP_ROLL", 122); ("OP_ROT", 123); ("OP_SWAP", 124);
    ("OP_TUCK", 125); ("OP_CAT", 126); ("OP_SUBSTR", 127); ("OP_LEFT", 128);
    ("OP_RIGHT", 129); ("OP_SIZE", 130); ("OP_INVERT", 131); ("OP_AND", 132);
    ("OP_OR", 133); ("OP_XOR", 134); ("OP_EQUAL", 135);
    ("OP_EQUALVERIFY", 136); ("OP_RESERVED1", 137); ("OP_RESERVED2", 138);
    ("OP_1ADD", 139); ("OP_1SUB", 140); ("OP_2MUL", 141); ("OP_2DIV", 142);
    ("OP_NEGATE", 143); ("OP_ABS", 144); ("OP_NOT", 145);
    ("OP_0NOTEQUAL", 146); ("OP_ADD", 147); ("OP_SUB", 148); ("OP_MUL", 149);
    ("OP_DIV", 150); ("OP_MOD", 151); ("OP_LSHIFT", 152); ("OP_RSHIFT", 153);
    ("OP_BOOLAND", 154); ("OP_BOOLOR", 155); ("OP_NUMEQUAL", 156);
    ("OP_NUMEQUALVERIFY", 157); ("OP_NUMNOTEQUAL", 158);
    ("OP_LESSTHAN", 159); ("OP_GREATERTHAN", 160);
    ("OP_LESSTHANOREQUAL", 161); ("OP_GREATERTHANOREQUAL", 162);
    ("OP_MIN", 163); ("OP_MAX", 164); ("OP_WITHIN", 165);
    ("OP_RIPEMD160", 166); ("OP_SHA1", 167); ("OP_SHA256", 168);
    ("OP_HASH160", 169); ("OP_HASH256", 170); ("OP_CODESEPARATOR", 171);
    ("OP_CHECKSIG", 172); ("OP_CHECKSIGVERIFY", 173);
    ("OP_CHECKMULTISIG", 174); ("OP_CHECKMULTISIGVERIFY", 175);
    ("OP_NOP1", 176); ("OP_NOP2", 177); ("OP_CHECKLOCKTIMEVERIFY", 177);
    ("OP_NOP3", 178); ("OP_CHECKSEQUENCEVERIFY", 178); ("OP_NOP4", 179);
    ("OP_NOP5", 180); ("OP_NOP6", 181); ("OP_NOP7", 182); ("OP_NOP8", 183);
    ("OP_NOP9", 184); ("OP_NOP10", 185); ("OP_CHECKSIGADD", 186);
    ("OP_PUBKEYHASH", 253); ("OP_PUBKEY", 254); ("OP_INVALIDOPCODE", 255) ].

(** [opcodes[name]]; [None] is [undefined]. *)
Fixpoint lookup_opcode (table : list (string * Z)) (name : string) : option Z :=
  match table with
  | [] => None
  | (k, code) :: table' =>
      if String.eqb k name then Some code else lookup_opcode table' name
  end.

Definition opcode (name : string) : option Z := lookup_opcode opcodes name.

Definition OP_0 : Z := 0.
Definition OP_PUSHDATA1 : Z := 76.
Definition OP_PUSHDATA2 : Z := 77.
Definition OP_PUSHDATA4 : Z := 78.
Definition OP_1NEGATE : Z := 79.
Definition OP_RESERVED : Z := 80.
Definition OP_1 : Z := 81.

(** [script.number]: [scriptNumSize] and [encode]. *)
Definition scriptNumSize (i : Z) : nat :=
  if 2147483647 <? i then 5%nat
  else if 8388607 <? i then 4%nat
  else if 32767 <? i then 3%nat
  else if 127 <? i then 2%nat
  else if 0 <? i then 1%nat
  else 0%nat.

(** [for (i = 0; i < size; ++i) { buffer[i] = value & 0xff; value >>= 8 }];
    both operators work on the 32-bit integer conversion of [value]. *)
Fixpoint encode_loop (size : nat) (value : Z) : Buffer :=
  match size with
  | O => []
  | S size' => byte_of_Z (band value 255) :: encode_loop size' (sar value 8)
  end.

(** [encode]: [size] bytes from the loop, then
    [if (buffer[size - 1] & 0x80) buffer[size - 1] = negative ? 0x80 : 0x00;
     else if (negative) buffer[size - 1] |= 0x80]. *)
Definition encode (_number : Z) : Buffer :=
  let value := Z.abs _number in
  let size := scriptNumSize value in
  let negative := _number <? 0 in
  let buffer := encode_loop size value in
  match buffer !! (size - 1)%nat with
  | None => buffer
  | Some last =>
      if negb (band (Z_of_byte last) 128 =? 0)
      then <[(size - 1)%nat := byte_of_Z (if negative then 128 else 0)]> buffer
      else if negative
      then <[(size - 1)%nat := byte_of_Z (bor (Z_of_byte last) 128)]> buffer
      else buffer
  end.

(** A script chunk: an opcode number or a data buffer. *)
Inductive Element :=
| Op (code : Z)
| Data (bytes : Buffer).

(** [asMinimalOP] of [script.compile]. *)
Definition asMinimalOP (buffer : Buffer) : option Z :=
  match buffer with
  | [] => Some OP_0
  | [b] =>
      let n := Z_of_byte b in
      if (1 <=? n) && (n <=? 16) then Some (OP_RESERVED + n)
      else if n =? 129 then Some OP_1NEGATE
      else None
  | _ => None
  end.

(** [pushdata.encode]: the length prefix of a data push. *)
Definition pushdata (n : Z) : Buffer :=
  if n <? OP_PUSHDATA1 then [byte_of_Z n]
  else if n <=? 255 then [byte_of_Z OP_PUSHDATA1; byte_of_Z n]
  else if n <=? 65535
  then [byte_of_Z OP_PUSHDATA2; byte_of_Z n; byte_of_Z (Z.shiftr n 8)]
  else [byte_of_Z OP_PUSHDATA4; byte_of_Z n; byte_of_Z (Z.shiftr n 8);
        byte_of_Z (Z.shiftr n 16); byte_of_Z (Z.shiftr n 24)].

Definition compile_chunk (chunk : Element) : Buffer :=
  match chunk with
  | Op code => [byte_of_Z code]
  | Data bytes =>
      match asMinimalOP bytes with
      | Some code => [byte_of_Z code]
      | None => (pushdata (Z.of_nat (length bytes)) ++ bytes)%list
      end
  end.

Definition compile (chunks : list Element) : Buffer :=
  concat (List.map compile_chunk chunks).

End Bitcoin.

Import Bitcoin.

(** ** The script compiler ([parseScript], [lib/scriptUtils.ts]) *)

(** The lines that are compiled: each line trimmed, empty lines and lines
    starting with [//] dropped. *)
Definition script_lines (scriptText : string) : list string :=
  List.filter (fun line => negb (String.eqb line "") && negb (startsWith line "//"))
              (List.map trim (split_lines scriptText)).

(** One iteration of the loop over the lines: the elements to push (none or
    one), or the error thrown. *)
Definition parse_line (line : string) : result (list Element) :=
  if startsWith line "OP_" then
    match opcode line with
    | Some code => mret [Op code]
    | None => throw ("Unknown opcode: " ++ line)
    end
  else if startsWith line "0x" then
    let hexData := slice 2 line in
    if negb (Z.of_nat (String.length hexData) mod 2 =? 0)
    then throw ("Invalid hex data: " ++ line)
    else mret [Data (Buffer_from_hex hexData)]
  else if matches_digits line then
    let num := parseInt line in
    if (1 <=? num) && (num <=? 16) then mret [Op (OP_1 + num - 1)]
    else if num =? 0 then mret [Op OP_0]
    else mret [Data (encode num)]
  else if 0 <? Z.of_nat (String.length line) then
    throw ("Cannot parse line: " ++ line)
  else mret [].

Fixpoint parse_lines (lines : list string) (scriptElements : list Element)
  : result (list Element) :=
  match lines with
  | [] => mret scriptElements
  | line :: rest =>
      pushed ← parse_line line;
      parse_lines rest (scriptElements ++ pushed)%list
  end.

(** [scriptElements] as they stand when the loop ends. *)
Definition parseElements (scriptText : string) : result (list Element) :=
  parse_lines (script_lines scriptText) [].

Definition parseScript (scriptText : string) : result Buffer :=
  scriptElements ← parseElements scriptText;
  mret (compile scriptElements).

(** ** External collaborators: chain API, PSBT library, wallet

    The chain API, the wallet extension and the PSBT library are outside the
    repository.  Their answers are fields of [Env]; a PSBT is the list of its
    inputs and outputs, [addInput] and [addOutput] append to it, and the two
    library calls that inspect a whole PSBT, [finalizeInput] and
    [extractTransaction], accept or throw as [Env] says. *)

(** The outcome of a [fetch]: the promise rejects, the response is not
    [ok], or the response is [ok] and has a body. *)
Inductive Response (A : Type) :=
| NetworkError (message : string)
| HttpError (status : Z) (text : string)
| Ok (body : A).
Arguments NetworkError {A} message.
Arguments HttpError {A} status text.
Arguments Ok {A} body.

Record PsbtInput := mkInput {
  hash : string;
  index : nat;
  witnessUtxo_script : Buffer;
  witnessUtxo_value : Z;
  witnessScript : option Buffer;
  tapInternalKey : option Buffer;
  finalScriptWitness : option Buffer
}.

Record PsbtOutput := mkOutput {
  address : string;
  out_value : Z
}.

Record Psbt := mkPsbt {
  inputs : list PsbtInput;
  outputs : list PsbtOutput
}.

(** [payments.p2wsh({ redeem: { output }, network })] *)
Record P2wsh := mkP2wsh {
  p2wsh_address : option string;
  p2wsh_output : Buffer
}.

(** The wallet extension [window.unisat], as far as the sources call it. *)
Record Unisat := mkUnisat {
  (** [signPsbt] followed by [Psbt.fromHex] *)
  unisat_signPsbt : Psbt -> result Psbt;
  (** [getPublicKey()]: the hex text of the key, [null], or a rejection *)
  unisat_getPublicKey : result (option string)
}.

Record Env := mkEnv {
  (** GET [/address/<a>/utxo] *)
  esplora_utxos : string -> Response (list Utxo);
  (** GET [/tx/<txid>]: the [scriptpubkey] of each entry of [vout] *)
  esplora_tx : string -> Response (list Buffer);
  (** POST [/tx] with the extracted transaction *)
  esplora_broadcast : Psbt -> Response string;
  p2wsh : Buffer -> result P2wsh;
  (** [window.unisat]; [None] when the wallet extension is absent *)
  window_unisat : option Unisat;
  (** [finalizeInput] and [extractTransaction] of the PSBT library throw the
      message given here, or accept *)
  finalize_rejects : Psbt -> option string;
  extract_rejects : Psbt -> option string;
  (** The state of the wallet context, [useBtcWallet()] *)
  walletAddress : option string;
  isConnected : bool;
  (** [Date.now()] *)
  now : Z
}.

(** The signer the builders reach through [window.unisat.signPsbt]; [None]
    when [window.unisat] is absent. *)
Definition unisat (env : Env) : option (Psbt -> result Psbt) :=
  match window_unisat env with
  | None => None
  | Some extension => Some (unisat_signPsbt extension)
  end.

(** [getPublicKey] of the wallet context ([WalletContext]): [null] without
    the extension or without a connection, [null] when the extension
    rejects the request or answers nothing, and the decoded key
    otherwise. *)
Definition getPublicKey (env : Env) : option Buffer :=
  match window_unisat env with
  | None => None
  | Some extension =>
      if negb (isConnected env) then None
      else match unisat_getPublicKey extension with
           | inr (Some publicKeyHex) =>
               if String.eqb publicKeyHex "" then None
               else Some (Buffer_from_hex publicKeyHex)
           | _ => None
           end
  end.

Arguments unisat : simpl never.
Arguments getPublicKey : simpl never.

(** What the operations change: the registry's storage and the
    transactions handed to the network. *)
Record World := mkWorld {
  storage : Storage;
  broadcasts : list Psbt
}.

Definition M (A : Type) : Type := World -> result A * World.

#[export] Instance M_ret : MRet M := fun A a w => (inr a, w).
#[export] Instance M_bind : MBind M := fun A B k m w =>
  match m w with
  | (inl e, w') => (inl e, w')
  | (inr a, w') => k a w'
  end.

Definition lift {A} (r : result A) : M A := fun w => (r, w).

(** [try { body } catch (error) { handler }] where the handler rethrows. *)
Definition try_catch {A} (body : M A) (handler : Error -> Error) : M A :=
  fun w =>
    match body w with
    | (inl e, w') => (inl (handler e), w')
    | (inr a, w') => (inr a, w')
    end.

Definition update_storage (f : Storage -> Storage) : M unit :=
  fun w => (inr tt, {| storage := f (storage w); broadcasts := broadcasts w |}).

(** ** [hooks/api.ts] *)

Definition getUtxos (env : Env) (addr : string) : result (list Utxo) :=
  match esplora_utxos env addr with
  | NetworkError msg => throw msg
  | HttpError status errorText =>
      throw ("Failed to fetch UTXOs: " ++ show status ++ " " ++ errorText)
  | Ok utxos => mret (List.filter (fun utxo => 546 <=? value utxo) utxos)
  end.

Definition pushTx (env : Env) (tx : Psbt) : M string :=
  fun w =>
    let w' := {| storage := storage w; broadcasts := (broadcasts w ++ [tx])%list |} in
    match esplora_broadcast env tx with
    | NetworkError msg => (inl msg, w')
    | HttpError status errorText =>
        (inl ("Failed to broadcast transaction: " ++ show status ++ " " ++ errorText), w')
    | Ok txid => (inr txid, w')
    end.

(** [psbt.extractTransaction()] *)
Definition extractTransaction (env : Env) (psbt : Psbt) : result Psbt :=
  match extract_rejects env psbt with
  | Some msg => throw msg
  | None => mret psbt
  end.

Definition addInput (psbt : Psbt) (input : PsbtInput) : Psbt :=
  {| inputs := (inputs psbt ++ [input])%list; outputs := outputs psbt |}.

Definition addOutput (psbt : Psbt) (output : PsbtOutput) : Psbt :=
  {| inputs := inputs psbt; outputs := (outputs psbt ++ [output])%list |}.

Definition input_total (psbt : Psbt) : Z :=
  foldl (fun sum input => sum + witnessUtxo_value input) 0 (inputs psbt).

(** ** The funding builder ([createScriptTransaction]) *)

Definition estimatedFee_funding : Z := 1000.

(** The previous-output lookup made for every selected input. *)
Definition fetch_output_script (env : Env) (utxo : Utxo) : result Buffer :=
  match esplora_tx env (txid utxo) with
  | NetworkError msg => throw msg
  | HttpError status _ =>
      throw ("Failed to fetch transaction " ++ txid utxo ++ ": " ++ show status)
  | Ok vouts =>
      match vouts !! vout utxo with
      | None =>
          throw ("Output " ++ show (Z.of_nat (vout utxo)) ++
                 " not found in transaction " ++ txid utxo)
      | Some script => mret script
      end
  end.

Definition xOnly (publicKey : Buffer) : Buffer :=
  if (length publicKey =? 33)%nat then drop 1 publicKey else take 32 publicKey.

Definition funding_input (env : Env) (wallet : string) (publicKey : Buffer)
    (utxo : Utxo) : result PsbtInput :=
  match fetch_output_script env utxo with
  | inl msg =>
      throw ("Failed to add UTXO " ++ txid utxo ++ ":" ++
             show (Z.of_nat (vout utxo)) ++ " - " ++ msg)
  | inr actualOutputScript =>
      mret {| hash := txid utxo;
              index := vout utxo;
              witnessUtxo_script := actualOutputScript;
              witnessUtxo_value := value utxo;
              witnessScript := None;
              tapInternalKey :=
                if startsWith wallet "tb1p" then Some (xOnly publicKey) else None;
              finalScriptWitness := None |}
  end.

Fixpoint add_funding_inputs (env : Env) (wallet : string) (publicKey : Buffer)
    (selectedUtxos : list Utxo) (psbt : Psbt) : result Psbt :=
  match selectedUtxos with
  | [] => mret psbt
  | utxo :: rest =>
      input ← funding_input env wallet publicKey utxo;
      add_funding_inputs env wallet publicKey rest (addInput psbt input)
  end.

Definition to_hex_digit (n : Z) : ascii :=
  ascii_of_N (Z.to_N (if n <? 10 then 48 + n else 87 + n)).

(** [buffer.toString("hex")] *)
Fixpoint to_hex (b : Buffer) : string :=
  match b with
  | [] => EmptyString
  | x :: b' =>
      String (to_hex_digit (Z_of_byte x / 16))
             (String (to_hex_digit (Z_of_byte x mod 16)) (to_hex b'))
  end.

(** The unsigned funding transaction, with what the later steps need. *)
Record FundingPlan := mkFundingPlan {
  plan_compiled : Buffer;
  plan_address : string;
  plan_psbt : Psbt
}.

(** Steps 1 to 8 of [createScriptTransaction]: everything before signing. *)
Definition funding_plan (env : Env) (scriptCode : string) (amount : Z)
    (wallet : string) (publicKey : Buffer) : result FundingPlan :=
  compiled ← parseScript scriptCode;
  pay ← p2wsh env compiled;
  match p2wsh_address pay with
  | None => throw "Failed to generate script address"
  | Some scriptAddr =>
      utxos ← getUtxos env wallet;
      if (length utxos =? 0)%nat
      then throw "No UTXOs available. Make sure your wallet has testnet Bitcoin."
      else
        let totalNeeded := amount + estimatedFee_funding in
        let totalAvailable := foldl (fun sum utxo => sum + value utxo) 0 utxos in
        if totalAvailable <? totalNeeded
        then throw ("Insufficient funds: have " ++ show totalAvailable ++
                    ", need " ++ show totalNeeded)
        else
          '(selectedUtxos, totalValue) ← selectUtxos utxos totalNeeded;
          let changeAmount := totalValue - amount - estimatedFee_funding in
          psbt ← add_funding_inputs env wallet publicKey selectedUtxos
                   {| inputs := []; outputs := [] |};
          let psbt := addOutput psbt {| address := scriptAddr; out_value := amount |} in
          let psbt :=
            if 546 <=? changeAmount
            then addOutput psbt {| address := wallet; out_value := changeAmount |}
            else psbt in
          mret {| plan_compiled := compiled;
                  plan_address := scriptAddr;
                  plan_psbt := psbt |}
  end.

(** The [catch] clause of [createScriptTransaction]. *)
Definition funding_handler (message : Error) : Error :=
  if includes message "Insufficient funds"
  then "Insufficient funds. Make sure you have enough testnet Bitcoin plus fee."
  else if includes message "Unknown opcode"
  then "Script parsing error: " ++ message
  else if includes message "Failed to fetch UTXOs"
  then "Failed to fetch UTXOs. Check your internet connection and wallet address."
  else if includes message "Failed to broadcast"
  then "Failed to broadcast transaction. The transaction may be invalid."
  else message.

Definition funding_record (env : Env) (scriptCode : string) (amount : Z)
    (wallet : string) (plan : FundingPlan) (txid : string) : TrackedScript :=
  {| id := txid ++ "_0";
     scriptAddress := plan_address plan;
     originalScript := scriptCode;
     compiledScript := to_hex (plan_compiled plan);
     createdAt := now env;
     createdBy := wallet;
     fundingTxid := txid;
     amount := amount;
     isSpent := false |}.

Definition funding_body (env : Env) (scriptCode : string) (amount : Z)
    (wallet : string) (publicKey : Buffer) : M (string * string) :=
  plan ← lift (funding_plan env scriptCode amount wallet publicKey);
  signedPsbt ← lift (match unisat env with
                     | None => throw "UniSat wallet not available"
                     | Some signPsbt => signPsbt (plan_psbt plan)
                     end);
  finalTx ← lift (extractTransaction env signedPsbt);
  txid ← pushTx env finalTx;
  update_storage (saveTrackedScript
                    (funding_record env scriptCode amount wallet plan txid));;
  mret (txid, plan_address plan).

Definition createScriptTransaction (env : Env) (scriptCode : string) (amount : Z)
    (wallet : string) (publicKey : Buffer) : M (string * string) :=
  try_catch (funding_body env scriptCode amount wallet publicKey) funding_handler.

(** ** The unlock builder ([unlockScript], [components/ScriptManager.tsx]) *)

Record ScriptUtxo := mkScriptUtxo {
  tracked : TrackedScript;
  utxos : list Utxo;
  balance : Z
}.

Definition estimatedFee : Z := 1500.
Definition minRelayFee : Z := 300.
Definition actualMinFee : Z := Z.max estimatedFee minRelayFee.

Definition needsWalletSponsorship (singleUtxoValue : Z) : bool :=
  let wouldBeOutput := singleUtxoValue - actualMinFee in
  (singleUtxoValue <? actualMinFee) || (wouldBeOutput <? 546).

(** The mutable variables of the sponsorship loop. *)
Record Sponsoring := mkSponsoring {
  sp_psbt : Psbt;
  sp_totalInput : Z;
  sp_walletUtxosNeeded : Z
}.

Definition wallet_input (walletUtxo : Utxo) (actualOutputScript : Buffer) : PsbtInput :=
  {| hash := txid walletUtxo;
     index := vout walletUtxo;
     witnessUtxo_script := actualOutputScript;
     witnessUtxo_value := value walletUtxo;
     witnessScript := None;
     tapInternalKey := None;
     finalScriptWitness := None |}.

(** [for (const walletUtxo of walletUtxos)] of the primary path: stop once
    the wallet value reaches the shortfall, skip a UTXO whose transaction is
    not found, let a rejected fetch escape. *)
Fixpoint sponsor_loop (env : Env) (walletUtxos : list Utxo) (shortfall : Z)
    (st : Sponsoring) : result Sponsoring :=
  match walletUtxos with
  | [] => mret st
  | walletUtxo :: rest =>
      if shortfall <=? sp_walletUtxosNeeded st then mret st
      else
        match esplora_tx env (txid walletUtxo) with
        | NetworkError msg => throw msg
        | HttpError _ _ => sponsor_loop env rest shortfall st
        | Ok vouts =>
            match vouts !! vout walletUtxo with
            | None => sponsor_loop env rest shortfall st
            | Some actualOutputScript =>
                sponsor_loop env rest shortfall
                  {| sp_psbt := addInput (sp_psbt st)
                                  (wallet_input walletUtxo actualOutputScript);
                     sp_totalInput := sp_totalInput st + value walletUtxo;
                     sp_walletUtxosNeeded := sp_walletUtxosNeeded st + value walletUtxo |}
            end
        end
  end.

(** The state of [unlockScript] once the output has been added. *)
Record Assembly := mkAssembly {
  asm_psbt : Psbt;
  asm_compiled : Buffer;
  asm_output_script : Buffer;
  asm_utxo : Utxo;
  asm_singleUtxoValue : Z;
  asm_totalInput : Z;
  asm_walletUtxosNeeded : Z;
  asm_finalOutput : Z
}.

Definition script_input (utxoToUnlock : Utxo) (output_script : Buffer)
    (witness_script : option Buffer) : PsbtInput :=
  {| hash := txid utxoToUnlock;
     index := vout utxoToUnlock;
     witnessUtxo_script := output_script;
     witnessUtxo_value := value utxoToUnlock;
     witnessScript := witness_script;
     tapInternalKey := None;
     finalScriptWitness := None |}.

(** The sponsorship branch: fetch the wallet's UTXOs, run the loop, and
    require the inputs to cover the script value plus the estimated fee. *)
Definition sponsor (env : Env) (wallet : string) (singleUtxoValue : Z)
    (st : Sponsoring) : result Sponsoring :=
  walletUtxos ← getUtxos env wallet;
  if (length walletUtxos =? 0)%nat
  then throw "No wallet UTXOs available to cover transaction fee"
  else
    let shortfall := actualMinFee + 546 in
    st' ← sponsor_loop env walletUtxos shortfall st;
    if sp_totalInput st' <? singleUtxoValue + estimatedFee
    then throw ("Insufficient funds: need " ++ show (singleUtxoValue + estimatedFee) ++
                " sats, have " ++ show (sp_totalInput st') ++ " sats")
    else mret st'.

(** The output value of the primary path. *)
Definition final_output (singleUtxoValue totalInput walletUtxosNeeded : Z) : Z :=
  let actualFee := Z.max estimatedFee minRelayFee in
  if 0 <? walletUtxosNeeded
  then
    let walletChange := totalInput - singleUtxoValue - actualFee in
    singleUtxoValue + Z.max 0 walletChange
  else singleUtxoValue - actualFee.

(** [unlockScript] from the public-key lookup to [psbt.addOutput]. *)
Definition assemble (env : Env) (script : ScriptUtxo) (wallet : string)
  : result Assembly :=
  match getPublicKey env with
  | None => throw "Failed to get public key"
  | Some _ =>
      let compiled := Buffer_from_hex (compiledScript (tracked script)) in
      pay ← p2wsh env compiled;
      match p2wsh_address pay with
      | None => throw "Script address mismatch"
      | Some addr =>
          if negb (String.eqb addr (scriptAddress (tracked script)))
          then throw "Script address mismatch"
          else
            match utxos script !! 0%nat with
            | None => throw "Cannot read properties of undefined"
            | Some utxoToUnlock =>
                let singleUtxoValue := value utxoToUnlock in
                let psbt :=
                  addInput {| inputs := []; outputs := [] |}
                    (script_input utxoToUnlock (p2wsh_output pay) (Some compiled)) in
                let st := {| sp_psbt := psbt;
                             sp_totalInput := singleUtxoValue;
                             sp_walletUtxosNeeded := 0 |} in
                st ← (if needsWalletSponsorship singleUtxoValue
                      then sponsor env wallet singleUtxoValue st
                      else mret st);
                let finalOutput :=
                  final_output singleUtxoValue (sp_totalInput st)
                               (sp_walletUtxosNeeded st) in
                let actualUsedFee := sp_totalInput st - finalOutput in
                if finalOutput <? 546
                then throw ("Output too small (" ++ show finalOutput ++
                            " sats). Need at least 546 sats for dust threshold.")
                else if actualUsedFee <? minRelayFee
                then throw ("Fee too low (" ++ show actualUsedFee ++
                            " sats). Network requires minimum " ++ show minRelayFee ++
                            " sats.")
                else
                  mret {| asm_psbt :=
                            addOutput (sp_psbt st)
                              {| address := wallet; out_value := finalOutput |};
                          asm_compiled := compiled;
                          asm_output_script := p2wsh_output pay;
                          asm_utxo := utxoToUnlock;
                          asm_singleUtxoValue := singleUtxoValue;
                          asm_totalInput := sp_totalInput st;
                          asm_walletUtxosNeeded := sp_walletUtxosNeeded st;
                          asm_finalOutput := finalOutput |}
            end
      end
  end.

(** The conversion of one witness-stack item. *)
Definition witness_item (item : string) : Buffer :=
  if startsWith item "0x" then Buffer_from_hex (slice 2 item)
  else if String.eqb item "OP_TRUE" || String.eqb item "1" then [x01]
  else if String.eqb item "OP_FALSE" || String.eqb item "0" then []
  else if matches_digits item then encode (parseInt item)
  else Buffer_from_utf8 item.

Definition scriptNeedsSignatures (script : ScriptUtxo) : bool :=
  includes (originalScript (tracked script)) "OP_CHECKSIG"
  || includes (originalScript (tracked script)) "OP_CHECKMULTISIG"
  || includes (originalScript (tracked script)) "OP_CHECKDATASIG".

(** The witness written by the finalizer of the primary path. *)
Definition witness_item_prefix (len : Z) : Buffer :=
  if len <? 253 then [byte_of_Z len]
  else [byte_of_Z 253; byte_of_Z (band len 255); byte_of_Z (band (sar len 8) 255)].

Definition witness_buffer (witnessStack : list Buffer) : Buffer :=
  (byte_of_Z (Z.of_nat (length witnessStack))
   :: concat (List.map (fun item =>
                witness_item_prefix (Z.of_nat (length item)) ++ item) witnessStack))%list.

(** The witness written by the fallback path. *)
Definition fallback_witness_buffer (witnessStack : list Buffer) : Buffer :=
  (byte_of_Z (Z.of_nat (length witnessStack))
   :: concat (List.map (fun item =>
                byte_of_Z (Z.of_nat (length item)) :: item) witnessStack))%list.

Definition set_final_witness (witness : Buffer) (input : PsbtInput) : PsbtInput :=
  {| hash := hash input;
     index := index input;
     witnessUtxo_script := witnessUtxo_script input;
     witnessUtxo_value := witnessUtxo_value input;
     witnessScript := witnessScript input;
     tapInternalKey := tapInternalKey input;
     finalScriptWitness := Some witness |}.

(** Input 0 receives its final witness; the other inputs and the outputs
    stay as they are. *)
Definition finalize_script_input (witness : Buffer) (psbt : Psbt) : Psbt :=
  {| inputs := match inputs psbt with
               | [] => []
               | input :: rest => set_final_witness witness input :: rest
               end;
     outputs := outputs psbt |}.

(** [finalPsbt.finalizeInput(0, finalizer)] inside its [try]. *)
Definition finalizeInput (env : Env) (witness : Buffer) (psbt : Psbt) : result Psbt :=
  match finalize_rejects env psbt with
  | Some msg => throw ("Failed to process script input: " ++ msg)
  | None =>
      match inputs psbt with
      | [] => throw "Failed to process script input: No input #0"
      | _ => mret (finalize_script_input witness psbt)
      end
  end.

(** The loop of the fallback path: every failure inside is swallowed. *)
Fixpoint fallback_loop (env : Env) (walletUtxos : list Utxo) (shortfall : Z)
    (simplePsbt : Psbt) (addedWalletValue : Z) : Psbt :=
  match walletUtxos with
  | [] => simplePsbt
  | walletUtxo :: rest =>
      if shortfall <=? addedWalletValue then simplePsbt
      else
        match esplora_tx env (txid walletUtxo) with
        | NetworkError _ | HttpError _ _ =>
            fallback_loop env rest shortfall simplePsbt addedWalletValue
        | Ok vouts =>
            match vouts !! vout walletUtxo with
            | None => fallback_loop env rest shortfall simplePsbt addedWalletValue
            | Some actualOutputScript =>
                fallback_loop env rest shortfall
                  (addInput simplePsbt (wallet_input walletUtxo actualOutputScript))
                  (addedWalletValue + value walletUtxo)
            end
        end
  end.

(** The [catch (extractError)] branch: a second transaction built from
    scratch, with its own checks, up to its [extractTransaction]. *)
Definition fallback (env : Env) (wallet : string) (asm : Assembly)
    (witnessStack : list Buffer) : result Psbt :=
  let singleUtxoValue := asm_singleUtxoValue asm in
  let walletUtxosNeeded := asm_walletUtxosNeeded asm in
  let simplePsbt :=
    addInput {| inputs := []; outputs := [] |}
      (script_input (asm_utxo asm) (asm_output_script asm) None) in
  simplePsbt ←
    (if 0 <? walletUtxosNeeded
     then
       walletUtxos ← getUtxos env wallet;
       let shortfall := estimatedFee - singleUtxoValue + 546 in
       mret (fallback_loop env walletUtxos shortfall simplePsbt 0)
     else mret simplePsbt);
  let actualFee := Z.max estimatedFee minRelayFee in
  let finalOutput :=
    if 0 <? walletUtxosNeeded
    then
      let fallbackTotalInput := singleUtxoValue + walletUtxosNeeded in
      let walletChange := fallbackTotalInput - singleUtxoValue - actualFee in
      singleUtxoValue + Z.max 0 walletChange
    else singleUtxoValue - actualFee in
  let fallbackTotalInput := input_total simplePsbt in
  let fallbackActualFee := fallbackTotalInput - finalOutput in
  if finalOutput <? 546
  then throw ("Fallback: Output too small (" ++ show finalOutput ++
              " sats). Need at least 546 sats for dust threshold.")
  else if fallbackActualFee <? minRelayFee
  then throw ("Fallback: Fee too low (" ++ show fallbackActualFee ++
              " sats). Network requires minimum " ++ show minRelayFee ++ " sats.")
  else
    let simplePsbt :=
      addOutput simplePsbt {| address := wallet; out_value := finalOutput |} in
    let simplePsbt :=
      finalize_script_input (fallback_witness_buffer witnessStack) simplePsbt in
    extractTransaction env simplePsbt.

(** The transaction that is handed to [pushTx], or the error that ends the
    attempt before any broadcast. *)
Definition unlock_transaction (env : Env) (script : ScriptUtxo)
    (witnessData : list string) (wallet : string) : result Psbt :=
  asm ← assemble env script wallet;
  let witnessStackData := List.map witness_item witnessData in
  let needsWalletSigning :=
    (0 <? asm_walletUtxosNeeded asm) || scriptNeedsSignatures script in
  finalPsbt ←
    (if needsWalletSigning
     then match unisat env with
          | None => throw "UniSat wallet not available"
          | Some signPsbt => signPsbt (asm_psbt asm)
          end
     else mret (asm_psbt asm));
  let witnessStack := (witnessStackData ++ [asm_compiled asm])%list in
  finalPsbt ← finalizeInput env (witness_buffer witnessStack) finalPsbt;
  match extractTransaction env finalPsbt with
  | inr finalTx => mret finalTx
  | inl _ => fallback env wallet asm witnessStack
  end.

Definition unlock_body (env : Env) (script : ScriptUtxo)
    (witnessData : list string) (wallet : string) : M string :=
  finalTx ← lift (unlock_transaction env script witnessData wallet);
  unlockTxid ← pushTx env finalTx;
  update_storage (markScriptAsSpent (scriptAddress (tracked script)));;
  mret unlockTxid.

(** [unlockScript]: the result is the unlock transaction id, or the message
    shown to the user. *)
Definition unlockScript (env : Env) (script : ScriptUtxo)
    (witnessData : list string) : M string :=
  match walletAddress env with
  | None => lift (throw "Wallet not connected")
  | Some wallet =>
      if (length (utxos script) =? 0)%nat
      then lift (throw "No UTXOs found at this script address")
      else try_catch (unlock_body env script witnessData wallet)
                     (fun message => "Failed to unlock script: " ++ message)
  end.

(** ** The compact-size witness encoder ([witnessStackToBuffer]) *)

(** The length prefix: one byte below 253, [0xfd] and two bytes up to 65535,
    [0xfe] and four bytes above. *)
Definition compact_size (n : Z) : Buffer :=
  if n <? 253 then [byte_of_Z n]
  else if n <=? 65535
  then [byte_of_Z 253; byte_of_Z (band n 255); byte_of_Z (band (sar n 8) 255)]
  else [byte_of_Z 254; byte_of_Z (band n 255); byte_of_Z (band (sar n 8) 255);
        byte_of_Z (band (sar n 16) 255); byte_of_Z (band (sar n 24) 255)].

Definition witnessStackToBuffer (stack : list Buffer) : Buffer :=
  (compact_size (Z.of_nat (length stack))
   ++ concat (List.map (fun element =>
                compact_size (Z.of_nat (length element)) ++ element) stack))%list.

(** ** Listing the scripts of a wallet ([loadScripts]) *)

(** One tracked script with the UTXOs found at its address; a failed lookup
    shows as no UTXO and a balance of 0. *)
Definition load_one (env : Env) (script : TrackedScript) : ScriptUtxo :=
  match getUtxos env (scriptAddress script) with
  | inr found =>
      {| tracked := script;
         utxos := found;
         balance := foldl (fun sum utxo => sum + value utxo) 0 found |}
  | inl _ => {| tracked := script; utxos := []; balance := 0 |}
  end.






(** ** The unlock form of a script card ([ScriptCard]) *)

Definition addWitnessInput (witnessInputs : list string) : list string :=
  (witnessInputs ++ [EmptyString])%list.

(** [witnessInputs.filter((_, i) => i !== index)] *)
Fixpoint remove_index {A} (i : nat) (l : list A) : list A :=
  match l, i with
  | [], _ => []
  | _ :: l', O => l'
  | x :: l', S i' => x :: remove_index i' l'
  end.

Definition removeWitnessInput (i : nat) (witnessInputs : list string) : list string :=
  if (1 <? length witnessInputs)%nat then remove_index i witnessInputs
  else witnessInputs.



(** The bytes hashed by the preview under the form: hex after [0x], the
    text otherwise, on the trimmed input. *)
Definition preview_bytes (input : string) : Buffer :=
  let trimmed := trim input in
  if startsWith trimmed "0x" then Buffer_from_hex (slice 2 trimmed)
  else Buffer_from_utf8 trimmed.

(** The fee notice of the card: [Math.max(300, Math.ceil(250 * 1.5))] is
    375, and the test is made on the balance of the address. *)
Definition card_estimatedFee : Z := Z.max 300 375.

Definition card_needsWalletSponsorship (balance : Z) : bool :=
  let wouldBeOutput := balance - card_estimatedFee in
  (balance <? card_estimatedFee) || (wouldBeOutput <? 546).

(** ** The opcode lists of the editor ([components/ScriptEditor.tsx]) *)

Module Editor.

Definition constants : list string :=
  [ "OP_0"; "OP_FALSE"; "OP_PUSHDATA1"; "OP_PUSHDATA2"; "OP_PUSHDATA4";
    "OP_1NEGATE"; "OP_1"; "OP_TRUE"; "OP_2"; "OP_3"; "OP_4"; "OP_5"; "OP_6";
    "OP_7"; "OP_8"; "OP_9"; "OP_10"; "OP_11"; "OP_12"; "OP_13"; "OP_14";
    "OP_15"; "OP_16" ].

Definition flow : list string :=
  [ "OP_NOP"; "OP_IF"; "OP_NOTIF"; "OP_ELSE"; "OP_ENDIF"; "OP_VERIFY";
    "OP_RETURN" ].

Definition stack : list string :=
  [ "OP_TOALTSTACK"; "OP_FROMALTSTACK"; "OP_IFDUP"; "OP_DEPTH"; "OP_DROP";
    "OP_DUP"; "OP_NIP"; "OP_OVER"; "OP_PICK"; "OP_ROLL"; "OP_ROT"; "OP_SWAP";
    "OP_TUCK"; "OP_2DROP"; "OP_2DUP"; "OP_3DUP"; "OP_2OVER"; "OP_2ROT";
    "OP_2SWAP" ].

Definition splice : list string :=
  [ "OP_CAT"; "OP_SUBSTR"; "OP_LEFT"; "OP_RIGHT"; "OP_SIZE" ].

Definition bitwise : list string :=
  [ "OP_INVERT"; "OP_AND"; "OP_OR"; "OP_XOR"; "OP_EQUAL"; "OP_EQUALVERIFY" ].

Definition arithmetic : list string :=
  [ "OP_1ADD"; "OP_1SUB"; "OP_2MUL"; "OP_2DIV"; "OP_NEGATE"; "OP_ABS";
    "OP_NOT"; "OP_0NOTEQUAL"; "OP_ADD"; "OP_SUB"; "OP_MUL"; "OP_DIV";
    "OP_MOD"; "OP_LSHIFT"; "OP_RSHIFT"; "OP_BOOLAND"; "OP_BOOLOR";
    "OP_NUMEQUAL"; "OP_NUMEQUALVERIFY"; "OP_NUMNOTEQUAL"; "OP_LESSTHAN";
    "OP_GREATERTHAN"; "OP_LESSTHANOREQUAL"; "OP_GREATERTHANOREQUAL"; "OP_MIN";
    "OP_MAX"; "OP_WITHIN" ].

Definition crypto : list string :=
  [ "OP_RIPEMD160"; "OP_SHA1"; "OP_SHA256"; "OP_HASH160"; "OP_HASH256";
    "OP_CODESEPARATOR"; "OP_CHECKSIG"; "OP_CHECKSIGVERIFY";
    "OP_CHECKMULTISIG"; "OP_CHECKMULTISIGVERIFY"; "OP_CHECKDATASIG";
    "OP_CHECKDATASIGVERIFY" ].

Definition locktime : list string :=
  [ "OP_CHECKLOCKTIMEVERIFY"; "OP_CHECKSEQUENCEVERIFY" ].

Definition ALL_OPCODES : list string :=
  (constants
   ++ flow
   ++ stack
   ++ splice
   ++ bitwise
   ++ arithmetic
   ++ crypto
   ++ locktime)%list.

End Editor.

(** ** The script templates of the builder ([SCRIPT_TEMPLATES]) *)

Module Templates.

Definition hashlock : string :=
"// Hash Lock Script - requires revealing a secret
OP_SHA256 
0x2cf24dba5fb0a30e26e83b2ac5b9e29e1b161e5c1fa7425e73043362938b9824 
OP_EQUAL".

Definition timelock : string :=
"// Relative Timelock - funds locked for 144 blocks
144 
OP_CHECKSEQUENCEVERIFY 
OP_DROP 
OP_DUP 
OP_HASH160 
0x89abcdefabbaabbaabbaabbaabbaabbaabbaabba 
OP_EQUALVERIFY 
OP_CHECKSIG".

Definition multisig : string :=
"// 2-of-3 Multisig
OP_2 
0x0279be667ef9dcbbac55a06295ce870b07029bfcdb2dce28d959f2815b16f81798 
0x02f9308a019258c31049344f85f89d5229b531c845836f99b08601f113bce036f9 
0x03e493dbf1c10d80f3581e4904930b1404cc6c13900ee0758474fa94abe8c4cd13 
OP_3 
OP_CHECKMULTISIG".

Definition puzzle : string :=
"// Math Puzzle - requires inputs that add to 10
OP_ADD 
10 
OP_EQUAL".

Definition codes : list string := [hashlock; timelock; multisig; puzzle].

End Templates.

(** ** Reference definitions used to state the properties *)

(** The script-number encoding as the specification words it: the
    magnitude in little-endian bytes, as few as hold it, with the sign in
    the high bit of the last byte and one more byte when that bit is taken
    by the magnitude. *)
Definition magnitude_length (m : Z) : nat :=
  if m <=? 0 then 0%nat else Z.to_nat (Z.log2 m / 8 + 1).

Definition magnitude_bytes (m : Z) : list Z :=
  List.map (fun i => (m / 256 ^ Z.of_nat i) mod 256) (seq 0 (magnitude_length m)).

Definition scriptnum_minimal (n : Z) : Buffer :=
  let bytes := magnitude_bytes (Z.abs n) in
  match last bytes with
  | None => []
  | Some top =>
      if 128 <=? top
      then List.map byte_of_Z (bytes ++ [if n <? 0 then 128 else 0])%list
      else if n <? 0
      then List.map byte_of_Z (removelast bytes ++ [top + 128])%list
      else List.map byte_of_Z bytes
  end.

(** Reading a script number back: little-endian magnitude, sign in the high
    bit of the last byte. *)
Fixpoint le_value (bytes : list Z) : Z :=
  match bytes with
  | [] => 0
  | b :: bytes' => b + 256 * le_value bytes'
  end.

Definition scriptnum_decode (b : Buffer) : Z :=
  let bytes := List.map Z_of_byte b in
  match last bytes with
  | None => 0
  | Some top =>
      if 128 <=? top
      then - (le_value (removelast bytes ++ [top - 128])%list)
      else le_value bytes
  end.

(** Descending order of value. *)
Definition desc (a b : Utxo) : Prop := value b <= value a.

(** An input of the transaction spends the given UTXO. *)
Definition spends (u : Utxo) (input : PsbtInput) : Prop :=
  hash input = txid u /\ index input = vout u /\ witnessUtxo_value input = value u.

(** The sum of a list of amounts, as [reduce] computes it. *)
Definition total_of (values : list Z) : Z := foldl Z.add 0 values.

(** Two records that differ at most in [isSpent], which is raised exactly
    when the address is the one being marked. *)
Definition marked_from (addr : string) (before after : TrackedScript) : Prop :=
  id after = id before
  /\ scriptAddress after = scriptAddress before
  /\ originalScript after = originalScript before
  /\ compiledScript after = compiledScript before
  /\ createdAt after = createdAt before
  /\ createdBy after = createdBy before
  /\ fundingTxid after = fundingTxid before
  /\ amount after = amount before
  /\ isSpent after = isSpent before || String.eqb (scriptAddress before) addr.

(** A transaction with a single output that is not dust and leaves at
    least the minimum relay fee. *)
Definition fee_safe (tx : Psbt) : Prop :=
  exists out, outputs tx = [out]
    /\ 546 <= out_value out
    /\ minRelayFee <= input_total tx - out_value out.

(** A signer that returns the transaction it was given, up to the
    signature data of its inputs. *)
Definition signer_keeps_amounts (signPsbt : Psbt -> result Psbt) : Prop :=
  forall psbt signed, signPsbt psbt = inr signed ->
    outputs signed = outputs psbt
    /\ List.map witnessUtxo_value (inputs signed)
       = List.map witnessUtxo_value (inputs psbt).

(** ** A concrete chain, wallet and signer for worked instances *)

Module Scenario.

Definition wallet : string := "tb1qwallet".

(** A stand-in for the hash and address encoding of [payments.p2wsh]. *)
Definition derive (script : Buffer) : result P2wsh :=
  inr {| p2wsh_address := Some ("tb1q" ++ to_hex script);
         p2wsh_output := x00 :: x20 :: script |}.

(** A signer that hands the transaction back unchanged. *)
Definition plain_signer : Psbt -> result Psbt := fun psbt => inr psbt.

(** A chain on which the wallet owns [wallet_utxos], every transaction has
    three outputs paying to the same script, and every broadcast is
    accepted. *)
Definition env_with (wallet_utxos : list Utxo) : Env :=
  {| esplora_utxos := fun addr =>
       if String.eqb addr wallet then Ok wallet_utxos else Ok [];
     esplora_tx := fun _ => Ok [[x51]; [x51]; [x51]];
     esplora_broadcast := fun _ => Ok "f00d";
     p2wsh := derive;
     window_unisat := Some {| unisat_signPsbt := plain_signer;
                              unisat_getPublicKey := inr (Some "02") |};
     finalize_rejects := fun _ => None;
     extract_rejects := fun _ => None;
     walletAddress := Some wallet;
     isConnected := true;
     now := 1700000000000 |}.

Definition empty_world : World :=
  {| storage := Some ∅; broadcasts := [] |}.

(** A tracked hash-lock script (OP_1 alone, compiled to 51) holding one
    UTXO of the given value. *)
Definition locked (v : Z) : ScriptUtxo :=
  {| tracked := {| id := "beef_0";
                   scriptAddress := "tb1q51";
                   originalScript := "OP_1";
                   compiledScript := "51";
                   createdAt := 1700000000000;
                   createdBy := wallet;
                   fundingTxid := "beef";
                   amount := v;
                   isSpent := false |};
     utxos := [mkUtxo "beef" 0 v];
     balance := v |}.

End Scenario.

(** ** Relations used to state the further properties *)

(** Descending order of amounts. *)
Definition geZ (a b : Z) : Prop := b <= a.

(** The line separator the compiler splits on. *)
Definition newline : string := String "010"%char EmptyString.

(** A text that fits on one line. *)
Fixpoint no_newline (s : string) : bool :=
  match s with
  | EmptyString => true
  | String c s' => negb (is_newline c) && no_newline s'
  end.

(** A text without white space. *)
Fixpoint no_space (s : string) : bool :=
  match s with
  | EmptyString => true
  | String c s' => negb (is_space c) && no_space s'
  end.

(** Two environments that give the unlock builder the same answers, the
    wallet's signer apart. *)
Definition same_but_signer (env env' : Env) : Prop :=
  esplora_utxos env' = esplora_utxos env
  /\ esplora_tx env' = esplora_tx env
  /\ esplora_broadcast env' = esplora_broadcast env
  /\ p2wsh env' = p2wsh env
  /\ finalize_rejects env' = finalize_rejects env
  /\ extract_rejects env' = extract_rejects env
  /\ walletAddress env' = walletAddress env
  /\ getPublicKey env' = getPublicKey env
  /\ now env' = now env.


(** ** Further chains and scripts for worked instances *)

Module Cases.

(** The same chain and wallet with another signer behind the extension. *)
Definition with_signer (sign : Psbt -> result Psbt) (env : Env) : Env :=
  {| esplora_utxos := esplora_utxos env;
     esplora_tx := esplora_tx env;
     esplora_broadcast := esplora_broadcast env;
     p2wsh := p2wsh env;
     window_unisat :=
       match window_unisat env with
       | None => None
       | Some extension =>
           Some {| unisat_signPsbt := sign;
                   unisat_getPublicKey := unisat_getPublicKey extension |}
       end;
     finalize_rejects := finalize_rejects env;
     extract_rejects := extract_rejects env;
     walletAddress := walletAddress env;
     isConnected := isConnected env;
     now := now env |}.

(** A signer that refuses every request. *)
Definition refusing_signer : Psbt -> result Psbt :=
  fun _ => inl "User rejected the request."%string.

(** The same chain and stored wallet address in a browser without the
    extension. *)
Definition without_extension (env : Env) : Env :=
  {| esplora_utxos := esplora_utxos env;
     esplora_tx := esplora_tx env;
     esplora_broadcast := esplora_broadcast env;
     p2wsh := p2wsh env;
     window_unisat := None;
     finalize_rejects := finalize_rejects env;
     extract_rejects := extract_rejects env;
     walletAddress := walletAddress env;
     isConnected := isConnected env;
     now := now env |}.

(** A chain on which the script address of [Scenario.locked] holds the given
    UTXOs and the wallet holds none. *)
Definition chain_with_script (script_utxos : list Utxo) : Env :=
  {| esplora_utxos := fun addr =>
       if String.eqb addr "tb1q51" then Ok script_utxos else Ok [];
     esplora_tx := fun _ => Ok [[x51]; [x51]; [x51]];
     esplora_broadcast := fun _ => Ok "f00d";
     p2wsh := Scenario.derive;
     window_unisat := Some {| unisat_signPsbt := Scenario.plain_signer;
                              unisat_getPublicKey := inr (Some "02") |};
     finalize_rejects := fun _ => None;
     extract_rejects := fun _ => None;
     walletAddress := Some Scenario.wallet;
     isConnected := true;
     now := 1700000000000 |}.

(** The script of [Scenario.locked] with a comment line that names a
    signature opcode. *)
Definition commented (v : Z) : ScriptUtxo :=
  {| tracked := {| id := "beef_0";
                   scriptAddress := "tb1q51";
                   originalScript := "// no OP_CHECKSIG here" ++ newline ++ "OP_1";
                   compiledScript := "51";
                   createdAt := 1700000000000;
                   createdBy := Scenario.wallet;
                   fundingTxid := "beef";
                   amount := v;
                   isSpent := false |};
     utxos := [mkUtxo "beef" 0 v];
     balance := v |}.

(** A script card whose address holds nothing any more. *)
Definition emptied : ScriptUtxo :=
  {| tracked := tracked (Scenario.locked 5000); utxos := []; balance := 0 |}.

End Cases.

(** * Properties *)

(** ** Registry *)

Section Registry.

Implicit Types (addr : string) (st : Storage) (s : TrackedScript).

Lemma mark_one_idem addr s : mark_one addr (mark_one addr s) = mark_one addr s.
Proof.
  unfold mark_one.
  destruct (String.eqb (scriptAddress s) addr) eqn:E; simpl.
  - now rewrite E.
  - now rewrite E.
Qed.

Lemma getTrackedScripts_insert (ls : gmap string Stored) l :
  getTrackedScripts (Some (<[TRACKED_SCRIPTS_KEY := Json l]> ls)) = l.
Proof. unfold getTrackedScripts. now rewrite lookup_insert_eq. Qed.

Lemma getTrackedScripts_marked addr st :
  getTrackedScripts (markScriptAsSpent addr st)
  = List.map (mark_one addr) (getTrackedScripts st).
Proof.
  destruct st as [ls|]; [|reflexivity].
  unfold markScriptAsSpent. now rewrite getTrackedScripts_insert.
Qed.

Lemma mark_one_marked_from addr s : marked_from addr s (mark_one addr s).
Proof.
  unfold marked_from, mark_one.
  destruct (String.eqb (scriptAddress s) addr); simpl.
  - repeat split; try reflexivity. now rewrite orb_true_r.
  - repeat split; try reflexivity. now rewrite orb_false_r.
Qed.

(** C9. Marking an address spent a second time changes nothing: the
    storage after two calls is the storage after one call, so every
    observation of the registry agrees, and no call fails. *)
Theorem markScriptAsSpent_idempotent addr st :
  markScriptAsSpent addr (markScriptAsSpent addr st) = markScriptAsSpent addr st
  /\ getTrackedScripts (markScriptAsSpent addr (markScriptAsSpent addr st))
     = getTrackedScripts (markScriptAsSpent addr st).
Proof.
  assert (H : markScriptAsSpent addr (markScriptAsSpent addr st)
              = markScriptAsSpent addr st).
  { destruct st as [ls|]; [|reflexivity].
    unfold markScriptAsSpent at 1.
    change (markScriptAsSpent addr (Some ls))
      with (Some (<[TRACKED_SCRIPTS_KEY :=
                     Json (List.map (mark_one addr) (getTrackedScripts (Some ls)))]> ls)).
    rewrite getTrackedScripts_insert, insert_insert_eq.
    rewrite List.map_map.
    do 3 f_equal. apply List.map_ext. intros s. apply mark_one_idem. }
  split; [exact H | now rewrite H].
Qed.

(** C10. Marking an address spent keeps the records in place, one for
    one and in order: each keeps every field but [isSpent], which becomes
    true on the records of that address (all of them, duplicates
    included) and is unchanged on the others; the other items of the
    storage are untouched, and without a [window] nothing is stored. *)
Theorem markScriptAsSpent_frame addr st :
  Forall2 (marked_from addr)
          (getTrackedScripts st) (getTrackedScripts (markScriptAsSpent addr st))
  /\ match st, markScriptAsSpent addr st with
     | Some ls, Some ls' =>
         delete TRACKED_SCRIPTS_KEY ls' = delete TRACKED_SCRIPTS_KEY ls
     | None, None => True
     | _, _ => False
     end.
Proof.
  split.
  - rewrite getTrackedScripts_marked.
    induction (getTrackedScripts st) as [|s l IH]; simpl; constructor.
    + apply mark_one_marked_from.
    + exact IH.
  - destruct st as [ls|]; simpl; [|exact I].
    apply delete_insert_eq.
Qed.

End Registry.

(** ** UTXO selection *)

Section Selection.

Implicit Types (u : Utxo) (l sel : list Utxo) (target tot : Z).

Lemma sum_values_app l1 l2 :
  sum_values (l1 ++ l2) = sum_values l1 + sum_values l2.
Proof. induction l1 as [|u l1 IH]; simpl; [reflexivity|]. rewrite IH. lia. Qed.

Lemma sum_values_insert u l : sum_values (insert_desc u l) = value u + sum_values l.
Proof.
  induction l as [|v l IH]; simpl; [reflexivity|].
  destruct (value u <? value v); simpl; [rewrite IH|]; lia.
Qed.

Lemma sum_values_sort l : sum_values (sort_desc l) = sum_values l.
Proof.
  induction l as [|u l IH]; [reflexivity|].
  unfold sort_desc; simpl; fold (sort_desc l).
  rewrite sum_values_insert, IH. reflexivity.
Qed.

Lemma foldl_sum_values l acc :
  foldl (fun sum utxo => sum + value utxo) acc l = acc + sum_values l.
Proof.
  revert acc. induction l as [|u l IH]; intros acc; simpl; [lia|].
  rewrite IH. lia.
Qed.

Lemma insert_desc_perm u l : Permutation (u :: l) (insert_desc u l).
Proof.
  induction l as [|v l IH]; simpl; [reflexivity|].
  destruct (value u <? value v); [|reflexivity].
  rewrite <- IH. apply perm_swap.
Qed.

Lemma sort_desc_perm l : Permutation l (sort_desc l).
Proof.
  induction l as [|u l IH]; [reflexivity|].
  unfold sort_desc; simpl; fold (sort_desc l).
  rewrite <- insert_desc_perm. now constructor.
Qed.

Lemma insert_desc_hd u v l :
  desc v u -> HdRel desc v l -> HdRel desc v (insert_desc u l).
Proof.
  intros Hvu Hl. destruct l as [|x l]; simpl; [now constructor|].
  destruct (value u <? value x); constructor; [|exact Hvu].
  now inversion Hl.
Qed.

Lemma insert_desc_sorted u l : Sorted desc l -> Sorted desc (insert_desc u l).
Proof.
  induction 1 as [|v l Hs IH Hhd]; simpl; [repeat constructor|].
  destruct (value u <? value v) eqn:E.
  - constructor; [exact IH|]. apply insert_desc_hd; [|exact Hhd].
    unfold desc. lia.
  - constructor; [now constructor|]. constructor. unfold desc. lia.
Qed.

Lemma sort_desc_sorted l : Sorted desc (sort_desc l).
Proof.
  induction l as [|u l IH]; [constructor|].
  unfold sort_desc; simpl; fold (sort_desc l).
  now apply insert_desc_sorted.
Qed.

(** The loop returns the shortest prefix of its input that lifts the
    running total to the target, or the whole input when none does. *)
Lemma select_loop_prefix l target sel tot :
  exists k : nat,
    (k <= length l)%nat
    /\ select_loop l target sel tot
       = ((sel ++ take k l)%list, tot + sum_values (take k l))
    /\ (forall j : nat, (j < k)%nat -> tot + sum_values (take j l) < target)
    /\ ((k < length l)%nat -> target <= tot + sum_values (take k l)).
Proof.
  revert sel tot. induction l as [|u l IH]; intros sel tot; simpl.
  - exists 0%nat. simpl. rewrite app_nil_r, Z.add_0_r.
    repeat split; try lia.
  - destruct (target <=? tot) eqn:E.
    + exists 0%nat. simpl. rewrite app_nil_r, Z.add_0_r.
      repeat split; try lia.
    + destruct (IH (sel ++ [u])%list (tot + value u)) as (k & Hk & Heq & Hlt & Hge).
      exists (S k). simpl. repeat split.
      * lia.
      * rewrite Heq. rewrite <- app_assoc. simpl. f_equal. lia.
      * intros [|j] Hj; simpl; [lia|].
        specialize (Hlt j ltac:(lia)). lia.
      * intros Hk'. specialize (Hge ltac:(lia)). lia.
Qed.

Lemma sum_values_take_le l (k : nat) :
  Forall (fun u => 0 <= value u) l -> sum_values (take k l) <= sum_values l.
Proof.
  intros H. revert k. induction H as [|u l Hu Hl IH]; intros [|k]; simpl; try lia.
  - assert (0 <= sum_values l) by (specialize (IH 0%nat); now rewrite take_0 in IH).
    lia.
  - specialize (IH k). lia.
Qed.

(** C3. When the UTXOs total at least the target, [selectUtxos] succeeds
    and returns a prefix of the list sorted in descending order of value
    (a sorted rearrangement of the input), together with its total; the
    total reaches the target and no shorter prefix does. *)
Theorem selectUtxos_shortest_prefix l target :
  target <= sum_values l ->
  Sorted desc (sort_desc l)
  /\ Permutation l (sort_desc l)
  /\ exists k : nat,
       (k <= length (sort_desc l))%nat
       /\ selectUtxos l target
          = inr (take k (sort_desc l), sum_values (take k (sort_desc l)))
       /\ target <= sum_values (take k (sort_desc l))
       /\ forall j : nat, (j < k)%nat -> sum_values (take j (sort_desc l)) < target.
Proof.
  intros Htot. split; [apply sort_desc_sorted|]. split; [apply sort_desc_perm|].
  destruct (select_loop_prefix (sort_desc l) target [] 0) as (k & Hk & Heq & Hlt & Hge).
  simpl in Heq. rewrite Z.add_0_l in Heq.
  assert (Hreach : target <= sum_values (take k (sort_desc l))).
  { destruct (decide (k < length (sort_desc l))%nat) as [Hk'|Hk'].
    - specialize (Hge Hk'). lia.
    - rewrite take_ge by lia. now rewrite sum_values_sort. }
  exists k. split; [exact Hk|]. split; [|split; [exact Hreach|]].
  - unfold selectUtxos. rewrite Heq.
    destruct (sum_values (take k (sort_desc l)) <? target) eqn:E; [lia|].
    reflexivity.
  - intros j Hj. specialize (Hlt j Hj). lia.
Qed.

(** The instance named in the specification: values 500, 300, 200 and 100
    (given here out of order) with target 450 select the 500 alone. *)
Lemma selectUtxos_shortest_prefix_witness :
  let l := [mkUtxo "a" 0 300; mkUtxo "b" 1 100; mkUtxo "c" 0 500; mkUtxo "d" 2 200] in
  450 <= sum_values l
  /\ selectUtxos l 450 = inr ([mkUtxo "c" 0 500], 500).
Proof.
  intros l.
  assert (H : 450 <= sum_values l) by (vm_compute; discriminate).
  split; [exact H|].
  destruct (selectUtxos_shortest_prefix l 450 H)
    as (_ & _ & k & _ & Heq & Hreach & Hmin).
  rewrite Heq. destruct k as [|[|k]].
  - vm_compute in Hreach. now destruct Hreach.
  - reflexivity.
  - specialize (Hmin 1%nat ltac:(lia)). vm_compute in Hmin. discriminate Hmin.
Defined.

End Selection.

(** ** Insufficient funds *)

Section Insufficient.

Lemma includes_prefix hay needle :
  String.prefix needle hay = true -> includes hay needle = true.
Proof. intros H. destruct hay; cbn [includes]; rewrite H; reflexivity. Qed.

Lemma funding_handler_insufficient rest :
  funding_handler ("Insufficient funds: have " ++ rest)
  = "Insufficient funds. Make sure you have enough testnet Bitcoin plus fee.".
Proof.
  unfold funding_handler.
  rewrite (includes_prefix _ "Insufficient funds") by reflexivity.
  reflexivity.
Qed.

(** C4 as stated fails: neither error message cites the two amounts.  With
    UTXOs of 500 and 400 and target 1000 the selector's message holds
    neither 900 nor 1000; with a wallet of 1000 and 900 and a lock amount
    of 1000 the funding builder's message holds neither 1900 nor 2000. *)
Lemma insufficiency_messages_cite_no_amounts :
  ~ (forall utxos target, sum_values utxos < target ->
       exists msg, selectUtxos utxos target = inl msg
                   /\ includes msg (show (sum_values utxos)) = true
                   /\ includes msg (show target) = true)
  /\ ~ (forall env scriptCode amount wallet publicKey w utxos,
          getUtxos env wallet = inr utxos ->
          sum_values utxos < amount + estimatedFee_funding ->
          exists msg w',
            createScriptTransaction env scriptCode amount wallet publicKey w
            = (inl msg, w')
            /\ includes msg (show (sum_values utxos)) = true
            /\ includes msg (show (amount + estimatedFee_funding)) = true).
Proof.
  split.
  - intros H.
    destruct (H [mkUtxo "a" 0 500; mkUtxo "b" 0 400] 1000 ltac:(vm_compute; reflexivity))
      as (msg & Hmsg & Hhave & _).
    vm_compute in Hmsg. injection Hmsg as <-.
    vm_compute in Hhave. discriminate Hhave.
  - intros H.
    destruct (H (Scenario.env_with [mkUtxo "a" 0 1000; mkUtxo "b" 0 900])
                "OP_1" 1000 Scenario.wallet [x02] Scenario.empty_world
                [mkUtxo "a" 0 1000; mkUtxo "b" 0 900]
                ltac:(reflexivity) ltac:(vm_compute; reflexivity))
      as (msg & w' & Hmsg & Hhave & _).
    vm_compute in Hmsg. injection Hmsg as <- <-.
    vm_compute in Hhave. discriminate Hhave.
Qed.

Lemma selectUtxos_insufficient utxos target :
  Forall (fun u => 0 <= value u) utxos ->
  sum_values utxos < target ->
  selectUtxos utxos target = inl "Insufficient UTXOs to cover the target amount".
Proof.
  intros Hpos Hlt. unfold selectUtxos.
  destruct (select_loop_prefix (sort_desc utxos) target [] 0)
    as (k & Hk & Heq & _ & _).
  simpl in Heq. rewrite Z.add_0_l in Heq. rewrite Heq.
  assert (Hle : sum_values (take k (sort_desc utxos)) <= sum_values (sort_desc utxos)).
  { apply sum_values_take_le.
    apply (Permutation_Forall (sort_desc_perm utxos)). exact Hpos. }
  rewrite sum_values_sort in Hle.
  destruct (sum_values (take k (sort_desc utxos)) <? target) eqn:E;
    [reflexivity|lia].
Qed.

Lemma funding_plan_insufficient env scriptCode amount wallet publicKey
    compiled pay addr utxos :
  parseScript scriptCode = inr compiled ->
  p2wsh env compiled = inr pay ->
  p2wsh_address pay = Some addr ->
  getUtxos env wallet = inr utxos ->
  utxos <> [] ->
  sum_values utxos < amount + estimatedFee_funding ->
  funding_plan env scriptCode amount wallet publicKey
  = inl ("Insufficient funds: have " ++ show (sum_values utxos) ++
         ", need " ++ show (amount + estimatedFee_funding)).
Proof.
  intros Hparse Hpay Haddr Hutxos Hne Hlt.
  unfold funding_plan. rewrite Hparse. simpl. rewrite Hpay. simpl.
  rewrite Haddr, Hutxos. simpl.
  destruct utxos as [|u0 utxos']; [congruence|].
  change (length (u0 :: utxos') =? 0)%nat with false. cbv iota.
  rewrite foldl_sum_values, Z.add_0_l.
  destruct (sum_values (u0 :: utxos') <? amount + estimatedFee_funding) eqn:E; [|lia].
  reflexivity.
Qed.

(** C4, amended.  When non-negative UTXO values total less than the
    target, [selectUtxos] fails with its fixed message, which cites no
    amount.  When the script compiles, its address is derived and the
    wallet's UTXOs (one at least) total less than the amount plus the flat
    fee of 1000, the funding builder raises an error citing the total and
    the requirement, and its [catch] clause replaces it by a fixed message
    before it reaches the caller; nothing is stored or broadcast. *)
Theorem insufficient_funds_reported :
  (forall utxos target,
      Forall (fun u => 0 <= value u) utxos ->
      sum_values utxos < target ->
      selectUtxos utxos target = inl "Insufficient UTXOs to cover the target amount")
  /\ (forall env scriptCode amount wallet publicKey w compiled pay addr utxos,
        parseScript scriptCode = inr compiled ->
        p2wsh env compiled = inr pay ->
        p2wsh_address pay = Some addr ->
        getUtxos env wallet = inr utxos ->
        utxos <> [] ->
        sum_values utxos < amount + estimatedFee_funding ->
        funding_plan env scriptCode amount wallet publicKey
        = inl ("Insufficient funds: have " ++ show (sum_values utxos) ++
               ", need " ++ show (amount + estimatedFee_funding))
        /\ createScriptTransaction env scriptCode amount wallet publicKey w
           = (inl "Insufficient funds. Make sure you have enough testnet Bitcoin plus fee.",
              w)).
Proof.
  split; [exact selectUtxos_insufficient|].
  intros env scriptCode amount wallet publicKey w compiled pay addr utxos
         Hparse Hpay Haddr Hutxos Hne Hlt.
  pose proof (funding_plan_insufficient env scriptCode amount wallet publicKey
                compiled pay addr utxos Hparse Hpay Haddr Hutxos Hne Hlt) as Hplan.
  split; [exact Hplan|].
  unfold createScriptTransaction, try_catch, funding_body.
  unfold mbind, M_bind, lift. rewrite Hplan.
  now rewrite funding_handler_insufficient.
Qed.

(** The selector on 500 and 400 with target 1000, and the builder on a
    wallet of 1000 and 900 asked to lock 1000. *)
Lemma insufficient_funds_reported_witness :
  let utxos := [mkUtxo "a" 0 1000; mkUtxo "b" 0 900] in
  selectUtxos [mkUtxo "a" 0 500; mkUtxo "b" 0 400] 1000
  = inl "Insufficient UTXOs to cover the target amount"
  /\ funding_plan (Scenario.env_with utxos) "OP_1" 1000 Scenario.wallet [x02]
     = inl "Insufficient funds: have 1900, need 2000"
  /\ createScriptTransaction (Scenario.env_with utxos) "OP_1" 1000 Scenario.wallet [x02]
                             Scenario.empty_world
     = (inl "Insufficient funds. Make sure you have enough testnet Bitcoin plus fee.",
        Scenario.empty_world).
Proof.
  intros utxos. split.
  - apply (proj1 insufficient_funds_reported).
    + repeat constructor; vm_compute; discriminate.
    + vm_compute. reflexivity.
  - refine (proj2 insufficient_funds_reported
              (Scenario.env_with utxos) "OP_1" 1000 Scenario.wallet [x02]
              Scenario.empty_world [x51]
              {| p2wsh_address := Some "tb1q51"; p2wsh_output := [x00; x20; x51] |}
              "tb1q51" utxos _ _ _ _ _ _).
    + reflexivity.
    + reflexivity.
    + reflexivity.
    + reflexivity.
    + discriminate.
    + vm_compute. reflexivity.
Defined.

End Insufficient.

(** ** Script numbers: the library encoder against the reference encoding *)

Section ScriptNumber.

Lemma byte_of_Z_congr a b : a mod 256 = b mod 256 -> byte_of_Z a = byte_of_Z b.
Proof. unfold byte_of_Z. now intros ->. Qed.

Lemma Z_of_byte_of_Z z : Z_of_byte (byte_of_Z z) = z mod 256.
Proof.
unfold Z_of_byte, byte_of_Z.
assert (H : 0 <= z mod 256 < 256) by (apply Z.mod_pos_bound; lia).
destruct (Byte.of_N (Z.to_N (z mod 256))) as [b|] eqn:E.
- apply Byte.to_of_N in E. rewrite E. lia.
- apply Byte.of_N_None_iff in E. lia.
Qed.

Lemma toInt32_small x : -2147483648 <= x < 2147483648 -> toInt32 x = x.
Proof. intros H. unfold toInt32. rewrite Z.mod_small; lia. Qed.

Lemma toInt32_congr x : toInt32 x mod 4294967296 = x mod 4294967296.
Proof.
unfold toInt32.
Z.div_mod_to_equations. lia.
Qed.

Lemma band_255 x : band x 255 = toInt32 x mod 256.
Proof.
unfold band. rewrite (toInt32_small 255) by lia.
change 255 with (Z.ones 8). rewrite Z.land_ones by lia. reflexivity.
Qed.

Lemma sar_8 x : sar x 8 = toInt32 x / 256.
Proof. unfold sar. rewrite Z.shiftr_div_pow2 by lia. reflexivity. Qed.

Lemma high_bit b : (band (Z_of_byte b) 128 =? 0) = (Z_of_byte b <? 128).
Proof. destruct b; reflexivity. Qed.

Lemma encode_nonneg n :
0 <= n ->
encode n =
  let size := scriptNumSize n in
  let buffer := encode_loop size n in
  match buffer !! (size - 1)%nat with
  | None => buffer
  | Some last =>
      if Z_of_byte last <? 128 then buffer
      else <[(size - 1)%nat := x00]> buffer
  end.
Proof.
intros Hn. unfold encode. rewrite Z.abs_eq by lia.
destruct (n <? 0) eqn:E; [lia|]. cbv zeta.
destruct (encode_loop (scriptNumSize n) n !! (scriptNumSize n - 1)%nat) as [b|]; [|reflexivity].
rewrite high_bit. destruct (Z_of_byte b <? 128); reflexivity.
Qed.

Lemma log2_range n a b : 0 < n -> 2 ^ a <= n < 2 ^ b -> 0 <= a -> a <= Z.log2 n < b.
Proof.
intros Hn [Hlo Hhi] Ha. split.
- apply Z.log2_le_pow2; lia.
- apply Z.log2_lt_pow2; lia.
Qed.

Ltac size_of n :=
unfold scriptNumSize;
repeat match goal with
       | |- context [?a <? n] => destruct (Z.ltb_spec a n); try lia
       end.

Ltac mag_len n a b c :=
unfold magnitude_length;
destruct (Z.leb_spec n 0); [lia|];
let H := fresh "Hlog" in
pose proof (log2_range n a b ltac:(lia) ltac:(simpl; lia) ltac:(lia)) as H;
replace (Z.log2 n / 8 + 1) with c by (Z.div_mod_to_equations; lia);
let v := eval vm_compute in (Z.to_nat c) in change (Z.to_nat c) with v.

Lemma toInt32_big x : 2147483648 <= x < 4294967296 -> toInt32 x = x - 4294967296.
Proof. intros H. unfold toInt32. Z.div_mod_to_equations. lia. Qed.

Ltac norm_bytes :=
rewrite ?band_255, ?sar_8;
repeat match goal with
       | |- context [toInt32 ?x] =>
           first [ rewrite (toInt32_small x) by (Z.div_mod_to_equations; lia)
                 | rewrite (toInt32_big x) by lia ]
       end.


Ltac decide_tests :=
repeat match goal with
       | |- context [?a <? ?b] => destruct (Z.ltb_spec a b)
       | |- context [?a <=? ?b] => destruct (Z.leb_spec a b)
       end.

Ltac bytes_eq :=
repeat match goal with
       | H : context [Z.modulo] |- _ => clear H
       end;
change x00 with (byte_of_Z 0);
repeat (apply (f_equal2 (@cons byte));
        [apply byte_of_Z_congr; Z.div_mod_to_equations; lia|]);
reflexivity.

Ltac red_lists :=
cbn -[Z.div Z.modulo Z.ltb Z.leb Z.pow Z.add Z.mul Z.sub toInt32 band sar byte_of_Z Z_of_byte].

Ltac encode_case n k a b c :=
rewrite encode_nonneg by lia; cbv zeta;
replace (scriptNumSize n) with k by (size_of n; reflexivity);
unfold scriptnum_minimal, magnitude_bytes; rewrite Z.abs_eq by lia;
mag_len n a b c;
red_lists; norm_bytes; rewrite ?Z_of_byte_of_Z;
repeat match goal with
       | |- context [256 ^ Z.of_nat ?i] =>
           let v := eval vm_compute in (256 ^ Z.of_nat i) in
           change (256 ^ Z.of_nat i) with v
       end;
rewrite ?Z.div_1_r, ?Z.mod_mod by lia;
match goal with Hl : context [Z.log2] |- _ => clear Hl end;
decide_tests; try (exfalso; Z.div_mod_to_equations; lia);
red_lists; bytes_eq.

Lemma encode_minimal_1 n : 1 <= n <= 127 -> encode n = scriptnum_minimal n.
Proof. intros H. encode_case n 1%nat 0 7 1. Qed.
Lemma encode_minimal_2 n : 128 <= n <= 255 -> encode n = scriptnum_minimal n.
Proof. intros H. encode_case n 2%nat 7 8 1. Qed.
Lemma encode_minimal_3 n : 256 <= n <= 32767 -> encode n = scriptnum_minimal n.
Proof. intros H. encode_case n 2%nat 8 15 2. Qed.
Lemma encode_minimal_4 n : 32768 <= n <= 65535 -> encode n = scriptnum_minimal n.
Proof. intros H. encode_case n 3%nat 15 16 2. Qed.
Lemma encode_minimal_5 n : 65536 <= n <= 8388607 -> encode n = scriptnum_minimal n.
Proof. intros H. encode_case n 3%nat 16 23 3. Qed.
Lemma encode_minimal_6 n : 8388608 <= n <= 16777215 -> encode n = scriptnum_minimal n.
Proof. intros H. encode_case n 4%nat 23 24 3. Qed.
Lemma encode_minimal_7 n : 16777216 <= n <= 2147483647 -> encode n = scriptnum_minimal n.
Proof. intros H. encode_case n 4%nat 24 31 4. Qed.
Lemma encode_minimal_8 n : 2147483648 <= n <= 4294967295 -> encode n = scriptnum_minimal n.
Proof. intros H. encode_case n 5%nat 31 32 4. Qed.

Lemma encode_zero : encode 0 = scriptnum_minimal 0.
Proof. reflexivity. Qed.

(** On the non-negative numbers below 2^32 the library encoder returns the
  reference encoding. *)
Lemma encode_minimal n : 0 <= n < 4294967296 -> encode n = scriptnum_minimal n.
Proof.
intros H.
destruct (Z.eq_dec n 0) as [->|]; [apply encode_zero|].
destruct (Z_le_gt_dec n 127); [apply encode_minimal_1; lia|].
destruct (Z_le_gt_dec n 255); [apply encode_minimal_2; lia|].
destruct (Z_le_gt_dec n 32767); [apply encode_minimal_3; lia|].
destruct (Z_le_gt_dec n 65535); [apply encode_minimal_4; lia|].
destruct (Z_le_gt_dec n 8388607); [apply encode_minimal_5; lia|].
destruct (Z_le_gt_dec n 16777215); [apply encode_minimal_6; lia|].
destruct (Z_le_gt_dec n 2147483647); [apply encode_minimal_7; lia|].
apply encode_minimal_8; lia.
Qed.

Ltac decode_case n a b c :=
unfold scriptnum_decode, scriptnum_minimal, magnitude_bytes; rewrite Z.abs_eq by lia;
mag_len n a b c;
red_lists;
repeat match goal with
       | |- context [256 ^ Z.of_nat ?i] =>
           let v := eval vm_compute in (256 ^ Z.of_nat i) in
           change (256 ^ Z.of_nat i) with v
       end;
rewrite ?Z.div_1_r, ?Z.mod_mod by lia;
match goal with Hl : context [Z.log2] |- _ => clear Hl end;
decide_tests; try (exfalso; Z.div_mod_to_equations; lia);
red_lists; rewrite ?Z_of_byte_of_Z; rewrite ?Z.mod_mod by lia;
change (0 mod 256) with 0;
decide_tests; try (exfalso; Z.div_mod_to_equations; lia);
cbn [le_value removelast app]; Z.div_mod_to_equations; lia.

Lemma decode_minimal_1 n : 1 <= n <= 127 -> scriptnum_decode (scriptnum_minimal n) = n.
Proof. intros H. decode_case n 0 7 1. Qed.
Lemma decode_minimal_2 n : 128 <= n <= 255 -> scriptnum_decode (scriptnum_minimal n) = n.
Proof. intros H. decode_case n 7 8 1. Qed.
Lemma decode_minimal_3 n : 256 <= n <= 32767 -> scriptnum_decode (scriptnum_minimal n) = n.
Proof. intros H. decode_case n 8 15 2. Qed.
Lemma decode_minimal_4 n : 32768 <= n <= 65535 -> scriptnum_decode (scriptnum_minimal n) = n.
Proof. intros H. decode_case n 15 16 2. Qed.
Lemma decode_minimal_5 n : 65536 <= n <= 8388607 -> scriptnum_decode (scriptnum_minimal n) = n.
Proof. intros H. decode_case n 16 23 3. Qed.
Lemma decode_minimal_6 n : 8388608 <= n <= 16777215 -> scriptnum_decode (scriptnum_minimal n) = n.
Proof. intros H. decode_case n 23 24 3. Qed.
Lemma decode_minimal_7 n : 16777216 <= n <= 2147483647 -> scriptnum_decode (scriptnum_minimal n) = n.
Proof. intros H. decode_case n 24 31 4. Qed.
Lemma decode_minimal_8 n : 2147483648 <= n <= 4294967295 -> scriptnum_decode (scriptnum_minimal n) = n.
Proof. intros H. decode_case n 31 32 4. Qed.

(** The reference encoding reads back as the number it encodes. *)
Lemma decode_minimal n : 0 <= n < 4294967296 -> scriptnum_decode (scriptnum_minimal n) = n.
Proof.
intros H.
destruct (Z.eq_dec n 0) as [->|]; [reflexivity|].
destruct (Z_le_gt_dec n 127); [apply decode_minimal_1; lia|].
destruct (Z_le_gt_dec n 255); [apply decode_minimal_2; lia|].
destruct (Z_le_gt_dec n 32767); [apply decode_minimal_3; lia|].
destruct (Z_le_gt_dec n 65535); [apply decode_minimal_4; lia|].
destruct (Z_le_gt_dec n 8388607); [apply decode_minimal_5; lia|].
destruct (Z_le_gt_dec n 16777215); [apply decode_minimal_6; lia|].
destruct (Z_le_gt_dec n 2147483647); [apply decode_minimal_7; lia|].
apply decode_minimal_8; lia.
Qed.

End ScriptNumber.

(** ** The compiler on single tokens *)

Section Compiler.

Lemma digit_val_range c d : digit_val c = Some d -> 0 <= d <= 9.
Proof.
  unfold digit_val.
  destruct (N.leb_spec 48 (N_of_ascii c)); simpl; [|discriminate].
  destruct (N.leb_spec (N_of_ascii c) 57); [|discriminate].
  intros [= <-]. lia.
Qed.

Lemma digit_not_space c : is_digit c = true -> is_space c = false.
Proof.
  unfold is_digit, digit_val, is_space.
  destruct (N.leb_spec 48 (N_of_ascii c)); simpl; [|discriminate].
  destruct (N.leb_spec (N_of_ascii c) 57); [|discriminate]. intros _.
  destruct (N.leb_spec 9 (N_of_ascii c)); [|lia].
  destruct (N.leb_spec (N_of_ascii c) 13); [lia|]. simpl.
  destruct (N.eqb_spec (N_of_ascii c) 32); [lia|].
  destruct (N.eqb_spec (N_of_ascii c) 160); [lia|]. reflexivity.
Qed.

Lemma digit_not_newline c : is_digit c = true -> is_newline c = false.
Proof.
  unfold is_digit, digit_val, is_newline.
  destruct (N.leb_spec 48 (N_of_ascii c)); simpl; [|discriminate].
  intros _. destruct (N.eqb_spec (N_of_ascii c) 10); [lia|reflexivity].
Qed.

Lemma all_digits_trimEnd s : all_digits s = true -> trimEnd s = s.
Proof.
  induction s as [|c s IH]; [reflexivity|]. simpl.
  intros [Hc Hs]%andb_true_iff. rewrite (IH Hs).
  destruct s; [|reflexivity]. now rewrite (digit_not_space c Hc).
Qed.

Lemma all_digits_trim s : all_digits s = true -> trim s = s.
Proof.
  intros H. unfold trim.
  assert (Hs : trimStart s = s).
  { destruct s as [|c s]; [reflexivity|]. simpl in *.
    apply andb_true_iff in H as [Hc _]. now rewrite (digit_not_space c Hc). }
  rewrite Hs. now apply all_digits_trimEnd.
Qed.

Lemma all_digits_split s : all_digits s = true -> split_lines s = [s].
Proof.
  induction s as [|c s IH]; [reflexivity|]. simpl.
  intros [Hc Hs]%andb_true_iff.
  rewrite (digit_not_newline c Hc), (IH Hs). reflexivity.
Qed.

Lemma prefix_head a p c s :
  String.prefix (String a p) (String c s) = true -> a = c /\ String.prefix p s = true.
Proof. simpl. destruct (ascii_dec a c); [auto|discriminate]. Qed.

(** A token that starts with a digit starts with none of [OP_] and [//];
    an all-digits token does not start with [0x] either. *)
Lemma digits_not_opcode c s : is_digit c = true -> startsWith (String c s) "OP_" = false.
Proof.
  intros Hc. unfold startsWith. destruct (String.prefix "OP_" (String c s)) eqn:E; [|reflexivity].
  apply prefix_head in E as [<- _]. discriminate Hc.
Qed.

Lemma digits_not_comment c s : is_digit c = true -> startsWith (String c s) "//" = false.
Proof.
  intros Hc. unfold startsWith. destruct (String.prefix "//" (String c s)) eqn:E; [|reflexivity].
  apply prefix_head in E as [<- _]. discriminate Hc.
Qed.

Lemma digits_not_hex s : all_digits s = true -> startsWith s "0x" = false.
Proof.
  intros H. unfold startsWith. destruct (String.prefix "0x" s) eqn:E; [|reflexivity].
  destruct s as [|c s]; [discriminate E|].
  apply prefix_head in E as [_ E].
  destruct s as [|d s]; [discriminate E|].
  apply prefix_head in E as [<- _].
  simpl in H. apply andb_true_iff in H as [_ H]. discriminate H.
Qed.

Lemma script_lines_digits line : matches_digits line = true -> script_lines line = [line].
Proof.
  intros H. destruct line as [|c s]; [discriminate|].
  unfold matches_digits in H. unfold script_lines.
  rewrite all_digits_split by exact H. cbn [List.map].
  rewrite all_digits_trim by exact H.
  simpl in H. apply andb_true_iff in H as [Hc _].
  cbn [List.filter]. rewrite (digits_not_comment c s Hc). reflexivity.
Qed.

Lemma parseInt_from_nonneg s acc : 0 <= acc -> 0 <= parseInt_from acc s.
Proof.
  revert acc. induction s as [|c s IH]; intros acc Hacc; simpl; [exact Hacc|].
  destruct (digit_val c) as [d|] eqn:E; [|exact Hacc].
  apply IH. apply digit_val_range in E. lia.
Qed.

Lemma parse_line_digits line :
  matches_digits line = true ->
  parse_line line
  = inr [ if (1 <=? parseInt line) && (parseInt line <=? 16)
          then Op (OP_1 + parseInt line - 1)
          else if parseInt line =? 0 then Op OP_0
          else Data (encode (parseInt line)) ].
Proof.
  intros H. unfold parse_line.
  destruct line as [|c s]; [discriminate|].
  assert (Hall : all_digits (String c s) = true) by exact H.
  assert (Hc : is_digit c = true) by (simpl in Hall; now apply andb_true_iff in Hall).
  rewrite (digits_not_opcode c s Hc), (digits_not_hex _ Hall), H.
  destruct ((1 <=? parseInt (String c s)) && (parseInt (String c s) <=? 16));
    [reflexivity|].
  destruct (parseInt (String c s) =? 0); reflexivity.
Qed.

(** What the hex branch does on every line with the prefix [0x]: the only
    test is the parity of the length. *)
Lemma hex_line_parses line :
  startsWith line "0x" = true ->
  parse_line line
  = if Z.of_nat (String.length (slice 2 line)) mod 2 =? 0
    then inr [Data (Buffer_from_hex (slice 2 line))]
    else inl ("Invalid hex data: " ++ line).
Proof.
  intros H. unfold parse_line. rewrite H.
  assert (Hop : startsWith line "OP_" = false).
  { unfold startsWith in *. destruct line as [|c s]; [discriminate H|].
    apply prefix_head in H as [<- _]. reflexivity. }
  rewrite Hop.
  destruct (Z.of_nat (String.length (slice 2 line)) mod 2 =? 0); reflexivity.
Qed.

(** C5, at the failing input.  The line [0xzz] has an even number of
    characters after the prefix, none of them a hex digit; it compiles,
    to an empty data element, where the specification requires the
    invalid-hex-data error. *)
Theorem hex_line_without_hex_digits_compiles :
  hex_val "z" = None
  /\ parse_line "0xzz" = inr [Data []]
  /\ parseElements "0xzz" = inr [Data []]
  /\ parseScript "0xzz" = inr [x00].
Proof. repeat split; reflexivity. Qed.

(** The conversion of decimal literals is not the script-number encoding
    for every all-digits token above 16: it is not at 4294967296. *)
Lemma large_decimal_literal_miscompiled :
  ~ (forall line,
       matches_digits line = true ->
       16 < parseInt line ->
       parseElements line = inr [Data (scriptnum_minimal (parseInt line))]).
Proof.
  intros H. specialize (H "4294967296" eq_refl eq_refl).
  vm_compute in H. discriminate H.
Qed.

(** Below 2^32 the compiler converts decimal literals to script numbers.
    A line that is an all-digits token of value [n] below 2^32 makes the
    compiler push one element, and a source made of that line compiles to
    that element alone: the opcode [OP_0] for 0, the opcode [OP_1 + n - 1]
    for [n] from 1 to 16, and for larger [n] a data push of the minimal
    signed little-endian script-number encoding of [n], which reads back
    as [n]. *)
Theorem decimal_literal_compiles line :
  matches_digits line = true ->
  parseInt line < 4294967296 ->
  let element :=
    if parseInt line =? 0 then Op OP_0
    else if parseInt line <=? 16 then Op (OP_1 + parseInt line - 1)
    else Data (scriptnum_minimal (parseInt line)) in
  parse_line line = inr [element]
  /\ parseElements line = inr [element]
  /\ opcode "OP_0" = Some OP_0
  /\ opcode "OP_1" = Some OP_1
  /\ scriptnum_decode (scriptnum_minimal (parseInt line)) = parseInt line.
Proof.
  intros Hd Hlt element.
  assert (Hn : 0 <= parseInt line) by (apply parseInt_from_nonneg; lia).
  assert (Hline : parse_line line = inr [element]).
  { rewrite (parse_line_digits line Hd). unfold element.
    destruct (Z.eqb_spec (parseInt line) 0) as [E|E].
    - rewrite E. reflexivity.
    - destruct (Z.leb_spec 1 (parseInt line)); [|lia].
      destruct (Z.leb_spec (parseInt line) 16); simpl; [reflexivity|].
      rewrite encode_minimal by lia. reflexivity. }
  split; [exact Hline|].
  split; [|split; [reflexivity|split; [reflexivity|apply decode_minimal; lia]]].
  unfold parseElements. rewrite (script_lines_digits line Hd).
  cbn [parse_lines]. rewrite Hline. reflexivity.
Qed.

Lemma decimal_literal_compiles_witness :
  matches_digits "300" = true
  /\ parseInt "300" < 4294967296
  /\ parseElements "300" = inr [Data [x2c; x01]].
Proof.
  split; [reflexivity|]. split; [reflexivity|].
  exact (proj1 (proj2 (decimal_literal_compiles "300" eq_refl eq_refl))).
Defined.

(** C6.  The line [4294967296] is an all-digits token above 16, and the
    compiler does not push the script-number encoding of its value,
    00 00 00 00 01: it pushes five zero bytes, which read back as 0, and
    the source compiles to 05 00 00 00 00 00 without an error.
    [number.encode] sizes its buffer for the value, five bytes here, and
    fills it with 32-bit operations ([value & 0xff], [value >>= 8]), which
    drop the bits from 2^32 on. *)
Theorem decimal_literal_wraps_at_2_32 :
  matches_digits "4294967296" = true
  /\ parseInt "4294967296" = 4294967296
  /\ parseElements "4294967296" = inr [Data [x00; x00; x00; x00; x00]]
  /\ parseScript "4294967296" = inr [x05; x00; x00; x00; x00; x00]
  /\ scriptnum_minimal 4294967296 = [x00; x00; x00; x00; x01]
  /\ scriptnum_decode [x00; x00; x00; x00; x00] = 0.
Proof. repeat split; vm_compute; reflexivity. Qed.

End Compiler.

(** ** Witness-stack items *)

Section Witness.

Lemma Buffer_from_hex_to_hex b : Buffer_from_hex (to_hex b) = b.
Proof.
  induction b as [|x b IH]; [reflexivity|].
  cbn [to_hex Buffer_from_hex]. rewrite IH.
  destruct x; reflexivity.
Qed.

(** The conversion of all-digits witness items is not the script-number
    encoding for every item: it is not at 4294967296. *)
Lemma large_witness_integer_misencoded :
  ~ (forall item,
       matches_digits item = true ->
       item <> "1" -> item <> "0" ->
       witness_item item = scriptnum_minimal (parseInt item)).
Proof.
  intros H.
  specialize (H "4294967296" eq_refl ltac:(discriminate) ltac:(discriminate)).
  vm_compute in H. discriminate H.
Qed.

(** The precedence of the conversion.  An item is converted by the first
    rule that applies: with the prefix [0x] it is hex-decoded; otherwise
    [OP_TRUE] and [1] give the byte 01 and [OP_FALSE] and [0] give no byte;
    otherwise an all-digits item goes through [number.encode], which gives
    the script-number encoding of its value below 2^32; otherwise the item
    gives its UTF-8 bytes. *)
Theorem witness_item_precedence item :
  (startsWith item "0x" = true ->
     witness_item item = Buffer_from_hex (slice 2 item))
  /\ (startsWith item "0x" = false ->
        (item = "OP_TRUE" \/ item = "1" -> witness_item item = [x01])
        /\ (item = "OP_FALSE" \/ item = "0" -> witness_item item = [])
        /\ (item <> "OP_TRUE" -> item <> "1" -> item <> "OP_FALSE" -> item <> "0" ->
              (matches_digits item = true ->
                 witness_item item = encode (parseInt item)
                 /\ (parseInt item < 4294967296 ->
                       witness_item item = scriptnum_minimal (parseInt item)))
              /\ (matches_digits item = false ->
                    witness_item item = Buffer_from_utf8 item))).
Proof.
  unfold witness_item. split; [now intros ->|]. intros ->.
  split; [|split].
  - intros [->| ->]; reflexivity.
  - intros [->| ->]; reflexivity.
  - intros H1 H2 H3 H4.
    apply String.eqb_neq in H1, H2, H3, H4. rewrite H1, H2, H3, H4. simpl.
    split.
    + intros Hd. rewrite Hd. split; [reflexivity|].
      intros Hlt. apply encode_minimal.
      split; [apply parseInt_from_nonneg; lia|exact Hlt].
    + now intros ->.
Qed.

(** One item of each form: hex, the two booleans, an integer, a text. *)
Lemma witness_item_precedence_witness :
  witness_item "0xabcd" = [xab; xcd]
  /\ witness_item "OP_TRUE" = [x01]
  /\ witness_item "0" = []
  /\ witness_item "300" = [x2c; x01]
  /\ witness_item "hello" = [x68; x65; x6c; x6c; x6f].
Proof.
  split; [exact (proj1 (witness_item_precedence "0xabcd") eq_refl)|].
  split; [exact (proj1 (proj2 (witness_item_precedence "OP_TRUE") eq_refl)
                   (or_introl eq_refl))|].
  split; [exact (proj1 (proj2 (proj2 (witness_item_precedence "0") eq_refl))
                   (or_intror eq_refl))|].
  split.
  - refine (proj2 (proj1 (proj2 (proj2 (proj2 (witness_item_precedence "300") eq_refl))
                              _ _ _ _) eq_refl) eq_refl); discriminate.
  - refine (proj2 (proj2 (proj2 (proj2 (witness_item_precedence "hello") eq_refl))
                     _ _ _ _) eq_refl); discriminate.
Defined.

(** C7.  The witness item [4294967296] has no [0x] prefix, is not a boolean
    keyword and is all digits, so it takes the integer branch; the bytes
    put on the witness stack are five zeros, which read back as 0, and not
    the script-number encoding of its value, 00 00 00 00 01.  The branch
    calls the encoder of the compiler, [number.encode], whose 32-bit
    operations drop the bits from 2^32 on. *)
Theorem witness_integer_wraps_at_2_32 :
  startsWith "4294967296" "0x" = false
  /\ matches_digits "4294967296" = true
  /\ parseInt "4294967296" = 4294967296
  /\ witness_item "4294967296" = [x00; x00; x00; x00; x00]
  /\ scriptnum_minimal 4294967296 = [x00; x00; x00; x00; x01]
  /\ scriptnum_decode (witness_item "4294967296") = 0.
Proof. repeat split; vm_compute; reflexivity. Qed.

End Witness.

(** ** The registry changes only after a successful broadcast *)

Section SideEffects.

(** C8.  The funding builder and the unlock builder leave the registry's
    storage as it was whenever they fail, whatever the step that failed;
    when they succeed, the broadcast call had returned a transaction id,
    and the storage is the old one with the new record appended
    (funding) or with the records of the script address marked spent
    (unlock). *)
Theorem registry_written_only_after_broadcast :
  (forall env scriptCode amount wallet publicKey w,
      let '(r, w') := createScriptTransaction env scriptCode amount wallet publicKey w in
      match r with
      | inl _ => storage w' = storage w
      | inr (txid, scriptAddr) =>
          exists plan tx,
            funding_plan env scriptCode amount wallet publicKey = inr plan
            /\ esplora_broadcast env tx = Ok txid
            /\ broadcasts w' = (broadcasts w ++ [tx])%list
            /\ scriptAddr = plan_address plan
            /\ storage w'
               = saveTrackedScript
                   (funding_record env scriptCode amount wallet plan txid) (storage w)
      end)
  /\ (forall env script witnessData w,
        let '(r, w') := unlockScript env script witnessData w in
        match r with
        | inl _ => storage w' = storage w
        | inr unlockTxid =>
            exists tx,
              esplora_broadcast env tx = Ok unlockTxid
              /\ broadcasts w' = (broadcasts w ++ [tx])%list
              /\ storage w'
                 = markScriptAsSpent (scriptAddress (tracked script)) (storage w)
        end).
Proof.
  split.
  - intros env scriptCode amount wallet publicKey w.
    unfold createScriptTransaction, try_catch, funding_body.
    unfold mbind, M_bind, lift, mret, M_ret, pushTx, update_storage.
    destruct (funding_plan env scriptCode amount wallet publicKey) as [e|plan];
      [reflexivity|].
    destruct (match unisat env with
              | Some signPsbt => signPsbt (plan_psbt plan)
              | None => throw "UniSat wallet not available"
              end) as [e|signedPsbt]; [reflexivity|].
    destruct (extractTransaction env signedPsbt) as [e|finalTx]; [reflexivity|].
    destruct (esplora_broadcast env finalTx) as [msg|status text|txid] eqn:Hb;
      try reflexivity.
    exists plan, finalTx. simpl. auto.
  - intros env script witnessData w.
    unfold unlockScript.
    destruct (walletAddress env) as [wallet|]; [|reflexivity].
    destruct (length (utxos script) =? 0)%nat; [reflexivity|].
    unfold try_catch, unlock_body.
    unfold mbind, M_bind, lift, mret, M_ret, pushTx, update_storage.
    destruct (unlock_transaction env script witnessData wallet) as [e|finalTx];
      [reflexivity|].
    destruct (esplora_broadcast env finalTx) as [msg|status text|txid] eqn:Hb;
      try reflexivity.
    exists finalTx. simpl. auto.
Qed.

End SideEffects.

(** ** The unlock builder: sponsorship, outputs and fee checks *)

Section Unlock.

Lemma input_total_values psbt :
  input_total psbt = total_of (List.map witnessUtxo_value (inputs psbt)).
Proof.
  unfold input_total, total_of. generalize 0.
  induction (inputs psbt) as [|i l IH]; intros z; simpl; [reflexivity|apply IH].
Qed.

Lemma total_of_app l1 l2 : total_of (l1 ++ l2) = total_of l1 + total_of l2.
Proof.
  unfold total_of. rewrite foldl_app.
  generalize (foldl Z.add 0 l1). intros z. revert z.
  induction l2 as [|x l2 IH]; intros z; simpl; [lia|].
  rewrite IH, (IH (0 + x)). lia.
Qed.

Lemma input_total_addInput psbt input :
  input_total (addInput psbt input) = input_total psbt + witnessUtxo_value input.
Proof.
  rewrite !input_total_values. simpl. rewrite List.map_app, total_of_app.
  unfold total_of. simpl. lia.
Qed.

Lemma input_total_finalize witness psbt :
  input_total (finalize_script_input witness psbt) = input_total psbt.
Proof.
  rewrite !input_total_values. simpl. now destruct (inputs psbt).
Qed.

Lemma fee_safe_values tx tx' :
  outputs tx' = outputs tx ->
  List.map witnessUtxo_value (inputs tx') = List.map witnessUtxo_value (inputs tx) ->
  fee_safe tx -> fee_safe tx'.
Proof.
  intros Ho Hi (out & Hout & Hdust & Hfee). exists out.
  rewrite Ho, input_total_values, Hi, <- input_total_values. auto.
Qed.

Lemma fee_safe_finalize witness tx :
  fee_safe tx -> fee_safe (finalize_script_input witness tx).
Proof.
  apply fee_safe_values; [reflexivity|]. simpl. now destruct (inputs tx).
Qed.

(** What the sponsorship loop adds: some of the wallet's UTXOs, in the
    wallet's order, each added while the value gathered so far was below
    the shortfall. *)
Lemma sponsor_loop_adds env l shortfall st st' :
  sponsor_loop env l shortfall st = inr st' ->
  exists added new_inputs,
    sublist added l
    /\ Forall2 spends added new_inputs
    /\ inputs (sp_psbt st') = (inputs (sp_psbt st) ++ new_inputs)%list
    /\ outputs (sp_psbt st') = outputs (sp_psbt st)
    /\ sp_totalInput st' = sp_totalInput st + sum_values added
    /\ sp_walletUtxosNeeded st' = sp_walletUtxosNeeded st + sum_values added
    /\ forall j : nat, (j < length added)%nat ->
         sp_walletUtxosNeeded st + sum_values (take j added) < shortfall.
Proof.
  revert st. induction l as [|u l IH]; intros st; simpl.
  - intros [= <-]. exists [], []. rewrite app_nil_r. simpl.
    repeat split; try lia; constructor.
  - destruct (Z.leb_spec shortfall (sp_walletUtxosNeeded st)) as [Hstop|Hgo].
    { intros [= <-]. exists [], []. rewrite app_nil_r. simpl.
      repeat split; try lia; [apply sublist_nil_l|constructor]. }
    assert (Hskip : sponsor_loop env l shortfall st = inr st' ->
              exists added new_inputs,
                sublist added (u :: l)
                /\ Forall2 spends added new_inputs
                /\ inputs (sp_psbt st') = (inputs (sp_psbt st) ++ new_inputs)%list
                /\ outputs (sp_psbt st') = outputs (sp_psbt st)
                /\ sp_totalInput st' = sp_totalInput st + sum_values added
                /\ sp_walletUtxosNeeded st' = sp_walletUtxosNeeded st + sum_values added
                /\ forall j : nat, (j < length added)%nat ->
                     sp_walletUtxosNeeded st + sum_values (take j added) < shortfall).
    { intros H. destruct (IH st H) as (added & ins & Hsub & rest).
      exists added, ins. split; [now apply sublist_cons|exact rest]. }
    destruct (esplora_tx env (txid u)) as [msg|status text|vouts];
      [discriminate|exact Hskip|].
    destruct (vouts !! vout u) as [script|]; [|exact Hskip].
    intros H. destruct (IH _ H) as (added & ins & Hsub & Hsp & Hin & Hout & Htot & Hneed & Hlt).
    simpl in *.
    exists (u :: added), (wallet_input u script :: ins). repeat split.
    + now apply sublist_skip.
    + constructor; [repeat split|exact Hsp].
    + rewrite Hin, <- app_assoc. reflexivity.
    + exact Hout.
    + simpl. lia.
    + simpl. lia.
    + intros [|j] Hj; simpl; [lia|].
      specialize (Hlt j ltac:(simpl in Hj; lia)). lia.
Qed.

(** The outcomes of [assemble], read off its branches. *)
Lemma assemble_inv env script wallet asm :
  assemble env script wallet = inr asm ->
  exists u st,
    utxos script !! 0%nat = Some u
    /\ asm_singleUtxoValue asm = value u
    /\ asm_utxo asm = u
    /\ (if needsWalletSponsorship (value u)
        then sponsor env wallet (value u)
               {| sp_psbt := addInput {| inputs := []; outputs := [] |}
                               (script_input u (asm_output_script asm)
                                  (Some (asm_compiled asm)));
                  sp_totalInput := value u;
                  sp_walletUtxosNeeded := 0 |} = inr st
        else st = {| sp_psbt := addInput {| inputs := []; outputs := [] |}
                                  (script_input u (asm_output_script asm)
                                     (Some (asm_compiled asm)));
                     sp_totalInput := value u;
                     sp_walletUtxosNeeded := 0 |})
    /\ asm_totalInput asm = sp_totalInput st
    /\ asm_walletUtxosNeeded asm = sp_walletUtxosNeeded st
    /\ asm_finalOutput asm
       = final_output (value u) (sp_totalInput st) (sp_walletUtxosNeeded st)
    /\ asm_psbt asm
       = addOutput (sp_psbt st) {| address := wallet; out_value := asm_finalOutput asm |}
    /\ 546 <= asm_finalOutput asm
    /\ minRelayFee <= asm_totalInput asm - asm_finalOutput asm.
Proof.
  unfold assemble.
  destruct (getPublicKey env); [|discriminate].
  destruct (p2wsh env _) as [e|pay]; [discriminate|]. simpl.
  destruct (p2wsh_address pay) as [addr|]; [|discriminate].
  destruct (negb _); [discriminate|].
  destruct (utxos script !! 0%nat) as [u|]; [|discriminate].
  destruct (needsWalletSponsorship (value u)) eqn:Hneeds.
  - destruct (sponsor env wallet (value u) _) as [e|st] eqn:Hsp; [discriminate|].
    simpl.
    destruct (Z.ltb_spec (final_output (value u) (sp_totalInput st)
                            (sp_walletUtxosNeeded st)) 546); [discriminate|].
    destruct (Z.ltb_spec (sp_totalInput st -
                          final_output (value u) (sp_totalInput st)
                            (sp_walletUtxosNeeded st)) minRelayFee); [discriminate|].
    intros [= <-]. exists u, st. simpl. rewrite Hneeds.
    repeat split; auto.
  - simpl.
    destruct (Z.ltb_spec (final_output (value u) (value u) 0) 546); [discriminate|].
    destruct (Z.ltb_spec (value u - final_output (value u) (value u) 0) minRelayFee);
      [discriminate|].
    intros [= <-]. eexists u, _. simpl. rewrite Hneeds.
    repeat split; auto.
Qed.


Lemma spends_total added new_inputs :
  Forall2 spends added new_inputs ->
  total_of (List.map witnessUtxo_value new_inputs) = sum_values added.
Proof.
  induction 1 as [|u i l l' (_ & _ & Hv) _ IH]; [reflexivity|].
  change (List.map witnessUtxo_value (i :: l'))
    with ([witnessUtxo_value i] ++ List.map witnessUtxo_value l')%list.
  rewrite total_of_app, IH. simpl. unfold total_of. simpl. lia.
Qed.

(** Everything the later steps rely on once [assemble] has succeeded. *)
Lemma assemble_facts env script wallet asm :
  assemble env script wallet = inr asm ->
  exists added,
    utxos script !! 0%nat = Some (asm_utxo asm)
    /\ asm_singleUtxoValue asm = value (asm_utxo asm)
    /\ Forall2 spends (asm_utxo asm :: added) (inputs (asm_psbt asm))
    /\ outputs (asm_psbt asm)
       = [{| address := wallet; out_value := asm_finalOutput asm |}]
    /\ asm_totalInput asm = asm_singleUtxoValue asm + sum_values added
    /\ asm_walletUtxosNeeded asm = sum_values added
    /\ asm_finalOutput asm
       = final_output (asm_singleUtxoValue asm) (asm_totalInput asm)
                      (asm_walletUtxosNeeded asm)
    /\ 546 <= asm_finalOutput asm
    /\ minRelayFee <= asm_totalInput asm - asm_finalOutput asm
    /\ (if needsWalletSponsorship (asm_singleUtxoValue asm)
        then exists walletUtxos,
               getUtxos env wallet = inr walletUtxos
               /\ sublist added walletUtxos
               /\ (forall j : nat, (j < length added)%nat ->
                     sum_values (take j added) < actualMinFee + 546)
               /\ estimatedFee <= sum_values added
        else added = []).
Proof.
  intros H.
  destruct (assemble_inv _ _ _ _ H)
    as (u & st & Hu & Hv & Hau & Hst & Htot & Hneed & Hfin & Hpsbt & Hdust & Hfee).
  subst u. rewrite <- Hv in Hst.
  destruct (needsWalletSponsorship (asm_singleUtxoValue asm)) eqn:Hs.
  - unfold sponsor in Hst.
    destruct (getUtxos env wallet) as [e|walletUtxos]; [discriminate|]. simpl in Hst.
    destruct (length walletUtxos =? 0)%nat; [discriminate|].
    destruct (sponsor_loop env walletUtxos (actualMinFee + 546) _) as [e|st0] eqn:Hloop;
      [discriminate|]. simpl in Hst.
    destruct (Z.ltb_spec (sp_totalInput st0) (asm_singleUtxoValue asm + estimatedFee));
      [discriminate|].
    injection Hst as ->.
    destruct (sponsor_loop_adds _ _ _ _ _ Hloop)
      as (added & ins & Hsub & Hsp & Hin & Hout & Ht & Hn & Hstop).
    simpl in *.
    exists added. rewrite Hpsbt. simpl. rewrite Hin, Hout.
    repeat split; try assumption; try lia.
    + constructor; [repeat split; symmetry; exact Hv|exact Hsp].
    + congruence.
    + exists walletUtxos. repeat split; try assumption; try lia.
  - subst st. simpl in *. exists []. rewrite Hpsbt. simpl.
    repeat split; try assumption; try lia.
    + constructor; [repeat split; symmetry; exact Hv|constructor].
    + congruence.
Qed.

Lemma assemble_fee_safe env script wallet asm :
  assemble env script wallet = inr asm -> fee_safe (asm_psbt asm).
Proof.
  intros H.
  destruct (assemble_facts _ _ _ _ H)
    as (added & _ & Hv & Hsp & Hout & Htot & _ & _ & Hdust & Hfee & _).
  exists {| address := wallet; out_value := asm_finalOutput asm |}.
  split; [exact Hout|]. split; [exact Hdust|]. simpl.
  rewrite input_total_values, (spends_total _ _ Hsp). simpl. lia.
Qed.




Lemma fallback_loop_outputs env l shortfall psbt added :
  outputs (fallback_loop env l shortfall psbt added) = outputs psbt.
Proof.
  revert psbt added. induction l as [|u l IH]; intros psbt added; simpl; [reflexivity|].
  destruct (shortfall <=? added); [reflexivity|].
  destruct (esplora_tx env (txid u)) as [msg|status text|vouts]; try apply IH.
  destruct (vouts !! vout u); [|apply IH].
  rewrite IH. reflexivity.
Qed.

(** The fallback path hands over a transaction only after its own two
    checks, made on the inputs it really added. *)
Lemma fallback_fee_safe env wallet asm witnessStack tx :
  fallback env wallet asm witnessStack = inr tx -> fee_safe tx.
Proof.
  assert (Htail : forall simplePsbt finalOutput,
             outputs simplePsbt = [] ->
             (if finalOutput <? 546
              then throw ("Fallback: Output too small (" ++ show finalOutput ++
                          " sats). Need at least 546 sats for dust threshold.")
              else if input_total simplePsbt - finalOutput <? minRelayFee
              then throw ("Fallback: Fee too low (" ++
                          show (input_total simplePsbt - finalOutput) ++
                          " sats). Network requires minimum " ++ show minRelayFee ++
                          " sats.")
              else extractTransaction env
                     (finalize_script_input (fallback_witness_buffer witnessStack)
                        (addOutput simplePsbt
                           {| address := wallet; out_value := finalOutput |})))
             = inr tx ->
             fee_safe tx).
  { intros simplePsbt finalOutput Hout.
    destruct (Z.ltb_spec finalOutput 546) as [|Hdust]; [discriminate|].
    destruct (Z.ltb_spec (input_total simplePsbt - finalOutput) minRelayFee) as [|Hfee];
      [discriminate|].
    unfold extractTransaction.
    destruct (extract_rejects env _); [discriminate|].
    intros [= <-].
    apply fee_safe_finalize.
    exists {| address := wallet; out_value := finalOutput |}.
    simpl. rewrite Hout. repeat split; [exact Hdust|exact Hfee]. }
  unfold fallback.
  destruct (0 <? asm_walletUtxosNeeded asm).
  - destruct (getUtxos env wallet) as [e|walletUtxos]; [discriminate|].
    intros H. refine (Htail _ _ _ H). apply fallback_loop_outputs.
  - intros H. refine (Htail _ _ _ H). reflexivity.
Qed.

(** The origin of the transaction that [unlockScript] broadcasts. *)
Lemma unlock_transaction_checked env script witnessData wallet tx :
  unlock_transaction env script witnessData wallet = inr tx ->
  exists asm,
    assemble env script wallet = inr asm
    /\ fee_safe (asm_psbt asm)
    /\ ((exists signed witness,
           (signed = asm_psbt asm
            \/ exists signPsbt, unisat env = Some signPsbt
                                /\ signPsbt (asm_psbt asm) = inr signed)
           /\ tx = finalize_script_input witness signed)
        \/ fee_safe tx).
Proof.
  unfold unlock_transaction.
  destruct (assemble env script wallet) as [e|asm] eqn:Hasm; [discriminate|]. simpl.
  intros H. exists asm. split; [reflexivity|].
  split; [exact (assemble_fee_safe _ _ _ _ Hasm)|].
  destruct (if (0 <? asm_walletUtxosNeeded asm) || scriptNeedsSignatures script
            then _ else _) as [e|signed] eqn:Hsign; [discriminate|].
  assert (Hsigned : signed = asm_psbt asm
                    \/ exists signPsbt, unisat env = Some signPsbt
                                        /\ signPsbt (asm_psbt asm) = inr signed).
  { destruct ((0 <? asm_walletUtxosNeeded asm) || scriptNeedsSignatures script).
    - destruct (unisat env) as [signPsbt|]; [|discriminate]. right. eauto.
    - left. now injection Hsign as <-. }
  simpl in H.
  destruct (finalizeInput env _ signed) as [e|finalPsbt] eqn:Hfin; [discriminate|].
  simpl in H.
  destruct (extractTransaction env finalPsbt) as [e|finalTx] eqn:Hext.
  - right. exact (fallback_fee_safe _ _ _ _ _ H).
  - left. injection H as <-.
    unfold extractTransaction in Hext.
    destruct (extract_rejects env finalPsbt); [discriminate|]. injection Hext as <-.
    unfold finalizeInput in Hfin.
    destruct (finalize_rejects env signed); [discriminate|].
    destruct (inputs signed) eqn:Hin; [discriminate|]. injection Hfin as <-.
    eauto.
Qed.

(** C2.  Whatever [unlockScript] returns, it has handed at most one
    transaction to the network.  If none, the operation failed.  If one,
    the transaction it constructed had passed both checks (a single
    output of at least 546, inputs exceeding it by at least 300) before
    the broadcast, in the primary path and in the fallback path alike:
    the fallback transaction is broadcast as checked, the primary one
    after signing and finalization, and it still satisfies both bounds
    when the signer returns the amounts it was given. *)
Theorem unlock_broadcast_checked env script witnessData w r w' :
  unlockScript env script witnessData w = (r, w') ->
  (broadcasts w' = broadcasts w /\ exists e, r = inl e)
  \/ exists wallet asm tx,
       walletAddress env = Some wallet
       /\ broadcasts w' = (broadcasts w ++ [tx])%list
       /\ assemble env script wallet = inr asm
       /\ fee_safe (asm_psbt asm)
       /\ ((exists signed witness,
              (signed = asm_psbt asm
               \/ exists signPsbt, unisat env = Some signPsbt
                                   /\ signPsbt (asm_psbt asm) = inr signed)
              /\ tx = finalize_script_input witness signed)
           \/ fee_safe tx)
       /\ ((forall signPsbt, unisat env = Some signPsbt ->
                            signer_keeps_amounts signPsbt) ->
           fee_safe tx).
Proof.
  unfold unlockScript.
  destruct (walletAddress env) as [wallet|]; [|intros [= <- <-]; left; eauto].
  destruct (length (utxos script) =? 0)%nat; [intros [= <- <-]; left; eauto|].
  unfold try_catch, unlock_body.
  unfold mbind, M_bind, lift, mret, M_ret, pushTx, update_storage.
  destruct (unlock_transaction env script witnessData wallet) as [e|tx] eqn:Htx;
    [intros [= <- <-]; left; eauto|].
  destruct (unlock_transaction_checked _ _ _ _ _ Htx) as (asm & Hasm & Hsafe & Horigin).
  intros Hrun. right. exists wallet, asm, tx.
  split; [reflexivity|]. split.
  { destruct (esplora_broadcast env tx); injection Hrun as <- <-; reflexivity. }
  split; [exact Hasm|]. split; [exact Hsafe|]. split; [exact Horigin|].
  intros Hsigner.
  destruct Horigin as [(signed & witness & Hsigned & ->)|Hfb]; [|exact Hfb].
  apply fee_safe_finalize.
  destruct Hsigned as [->|(signPsbt & Hu & Hs)]; [exact Hsafe|].
  destruct (Hsigner _ Hu _ _ Hs) as [Ho Hi].
  exact (fee_safe_values _ _ Ho Hi Hsafe).
Qed.

(** A self-funded unlock of 5000 sats on a chain that accepts it: one
    transaction is broadcast, paying 3500 from an input of 5000. *)
Lemma unlock_broadcast_checked_witness :
  exists txid tx w',
    unlockScript (Scenario.env_with []) (Scenario.locked 5000) ["0x01"]
                 Scenario.empty_world = (inr txid, w')
    /\ broadcasts w' = [tx]
    /\ fee_safe tx
    /\ List.map out_value (outputs tx) = [3500]
    /\ input_total tx = 5000.
Proof.
  pose (run := unlockScript (Scenario.env_with []) (Scenario.locked 5000) ["0x01"]
                            Scenario.empty_world).
  assert (Hrun : run = (fst run, snd run)) by (destruct run; reflexivity).
  pose proof (unlock_broadcast_checked _ _ _ _ _ _ Hrun) as H.
  destruct H as [(_ & e & He)|(wallet & asm & tx & _ & Hb & _ & _ & _ & Hsafe)].
  - vm_compute in He. discriminate He.
  - exists "f00d", tx, (snd run). split; [|split; [exact Hb|]].
    + rewrite Hrun at 1. f_equal.
    + assert (Htx : [tx] = broadcasts (snd run)) by (rewrite Hb; reflexivity).
      vm_compute in Htx. injection Htx as ->.
      split; [|split; reflexivity].
      apply Hsafe. intros signPsbt [= <-] psbt signed [= <-]. split; reflexivity.
Defined.

End Unlock.

(** ** Worked instances of the two builders *)

Section Instances.

(** Funding 1000 sats from a wallet UTXO of 5000: the transaction pays 1000
    to the script and 3000 back, is broadcast, and its record is stored. *)
Example funding_succeeds :
  exists w',
    createScriptTransaction (Scenario.env_with [mkUtxo "cafe" 0 5000]) "OP_1" 1000
                            Scenario.wallet [x02] Scenario.empty_world
    = (inr ("f00d", "tb1q51"), w')
    /\ List.map (fun tx => List.map out_value (outputs tx)) (broadcasts w')
       = [[1000; 3000]]
    /\ List.map (fun s => (id s, scriptAddress s, compiledScript s, amount s, isSpent s))
                (getTrackedScripts (storage w'))
       = [("f00d_0", "tb1q51", "51", 1000, false)].
Proof. eexists. split; [vm_compute; reflexivity|]. split; reflexivity. Qed.

(** An unlock whose primary extraction is refused goes through the fallback
    path: the transaction broadcast is the second one, with the same
    amounts, and the record is marked spent. *)
Example fallback_unlock_succeeds :
  let env :=
    {| esplora_utxos := esplora_utxos (Scenario.env_with []);
       esplora_tx := esplora_tx (Scenario.env_with []);
       esplora_broadcast := esplora_broadcast (Scenario.env_with []);
       p2wsh := Scenario.derive;
       window_unisat := window_unisat (Scenario.env_with []);
       finalize_rejects := fun _ => None;
       extract_rejects := fun psbt =>
         match inputs psbt with
         | input :: _ =>
             match witnessScript input with
             | Some _ => Some "Not finalized"
             | None => None
             end
         | [] => None
         end;
       walletAddress := Some Scenario.wallet;
       isConnected := true;
       now := 0 |} in
  let w := {| storage := saveTrackedScript (tracked (Scenario.locked 5000)) (Some ∅);
              broadcasts := [] |} in
  exists w',
    unlockScript env (Scenario.locked 5000) ["hello"] w = (inr "f00d", w')
    /\ List.map (fun tx => (input_total tx, List.map out_value (outputs tx)))
                (broadcasts w')
       = [(5000, [3500])]
    /\ List.map isSpent (getTrackedScripts (storage w')) = [true].
Proof.
  intros env w. eexists. split; [vm_compute; reflexivity|]. split; reflexivity.
Qed.

(** A sponsored unlock: 400 sats at the script, 3000 in the wallet; the
    output returns 400 + (3000 - 1500). *)
Example sponsored_unlock_succeeds :
  exists w',
    unlockScript (Scenario.env_with [mkUtxo "cafe" 1 3000]) (Scenario.locked 400)
                 ["OP_TRUE"] Scenario.empty_world = (inr "f00d", w')
    /\ List.map (fun tx => (input_total tx, List.map out_value (outputs tx)))
                (broadcasts w')
       = [(3400, [1900])].
Proof. eexists. split; [vm_compute; reflexivity|]. reflexivity. Qed.

End Instances.

(** * Further properties of the sources *)

(** ** Registry: saving, listing and marking together *)

Section RegistryMore.

Implicit Types (addr wallet : string) (st : Storage) (s r : TrackedScript).

Lemma createdBy_mark_one addr s : createdBy (mark_one addr s) = createdBy s.
Proof. unfold mark_one. now destruct (String.eqb (scriptAddress s) addr). Qed.

Lemma getTrackedScripts_saved r st :
  getTrackedScripts (saveTrackedScript r st)
  = match st with
    | Some _ => (getTrackedScripts st ++ [r])%list
    | None => []
    end.
Proof.
  destruct st as [ls|]; [|reflexivity].
  unfold saveTrackedScript. now rewrite getTrackedScripts_insert.
Qed.

(** X1.  Saving appends: with a [window], the listing of the creator's
    wallet gains the record at its end and the listing of every other
    wallet is what it was; earlier records are never dropped or reordered,
    even when the stored text was not readable (the listing was then
    empty); the other items of the storage are untouched. *)
Theorem saveTrackedScript_listing r (ls : gmap string Stored) wallet :
  getTrackedScripts (saveTrackedScript r (Some ls))
  = (getTrackedScripts (Some ls) ++ [r])%list
  /\ getTrackedScriptsByWallet wallet (saveTrackedScript r (Some ls))
     = (getTrackedScriptsByWallet wallet (Some ls)
        ++ if String.eqb (createdBy r) wallet then [r] else [])%list
  /\ match saveTrackedScript r (Some ls) with
     | Some ls' => delete TRACKED_SCRIPTS_KEY ls' = delete TRACKED_SCRIPTS_KEY ls
     | None => False
     end.
Proof.
  split; [apply getTrackedScripts_saved|]. split.
  - unfold getTrackedScriptsByWallet. rewrite getTrackedScripts_saved.
    rewrite List.filter_app. simpl.
    now destruct (String.eqb (createdBy r) wallet).
  - simpl. apply delete_insert_eq.
Qed.

(** X2.  Marking an address spent does not move a record from one wallet's
    listing to another: the listing of a wallet after the marking is its
    listing before, record by record, with the flag raised on the records
    of that address. *)
Theorem markScriptAsSpent_listing addr wallet st :
  getTrackedScriptsByWallet wallet (markScriptAsSpent addr st)
  = List.map (mark_one addr) (getTrackedScriptsByWallet wallet st).
Proof.
  unfold getTrackedScriptsByWallet. rewrite getTrackedScripts_marked.
  induction (getTrackedScripts st) as [|s l IH]; [reflexivity|].
  simpl. rewrite createdBy_mark_one.
  destruct (String.eqb (createdBy s) wallet); simpl; now rewrite IH.
Qed.

Lemma mark_one_comm a b s : mark_one a (mark_one b s) = mark_one b (mark_one a s).
Proof.
  unfold mark_one.
  destruct (String.eqb (scriptAddress s) a) eqn:Ea,
           (String.eqb (scriptAddress s) b) eqn:Eb; simpl;
    rewrite ?Ea, ?Eb; reflexivity.
Qed.

(** X3.  Markings of two addresses can be made in either order: the
    storage is the same. *)
Theorem markScriptAsSpent_comm a b st :
  markScriptAsSpent a (markScriptAsSpent b st)
  = markScriptAsSpent b (markScriptAsSpent a st).
Proof.
  destruct st as [ls|]; [|reflexivity].
  assert (H : forall c (m : gmap string Stored),
             markScriptAsSpent c (Some m)
             = Some (<[TRACKED_SCRIPTS_KEY :=
                        Json (List.map (mark_one c) (getTrackedScripts (Some m)))]> m))
    by reflexivity.
  rewrite (H b ls), (H a ls), !H.
  rewrite !getTrackedScripts_insert, !insert_insert_eq, !List.map_map.
  do 3 f_equal. apply List.map_ext. intros s. apply mark_one_comm.
Qed.

(** X4.  Spending does not close an address: a record saved after the
    marking of its own address is stored as it was given, so a script
    funded again after an unlock is listed unspent beside its spent
    predecessors; marking after the save flags it as well. *)
Theorem save_after_mark r addr (ls : gmap string Stored) :
  getTrackedScripts (saveTrackedScript r (markScriptAsSpent addr (Some ls)))
  = (List.map (mark_one addr) (getTrackedScripts (Some ls)) ++ [r])%list
  /\ getTrackedScripts (markScriptAsSpent addr (saveTrackedScript r (Some ls)))
     = (List.map (mark_one addr) (getTrackedScripts (Some ls))
        ++ [mark_one addr r])%list.
Proof.
  split.
  - rewrite getTrackedScripts_saved, getTrackedScripts_marked. reflexivity.
  - rewrite getTrackedScripts_marked, getTrackedScripts_saved.
    now rewrite List.map_app.
Qed.

End RegistryMore.

(** ** The chain API: what the UTXO fetch returns *)

Section FetchMore.

Lemma getUtxos_filtered env addr found :
  getUtxos env addr = inr found ->
  Forall (fun u => 546 <= value u) found
  /\ exists response, esplora_utxos env addr = Ok response /\ sublist found response.
Proof.
  unfold getUtxos. destruct (esplora_utxos env addr) as [msg|status text|response];
    try discriminate.
  intros [= <-]. split.
  - apply List.Forall_forall. intros u Hin. apply List.filter_In in Hin as [_ Hu].
    now apply Z.leb_le in Hu.
  - exists response. split; [reflexivity|].
    induction response as [|u l IH]; simpl; [constructor|].
    destruct (546 <=? value u); [now apply sublist_skip|now apply sublist_cons].
Qed.

Lemma foldl_sum_ge (l : list Utxo) :
  Forall (fun u => 546 <= value u) l ->
  forall u, l !! 0%nat = Some u -> value u <= sum_values l.
Proof.
  intros H u Hu. destruct H as [|x l Hx Hl]; [discriminate|].
  injection Hu as <-. simpl.
  assert (0 <= sum_values l).
  { clear Hx. induction Hl as [|y l Hy _ IH]; simpl; lia. }
  lia.
Qed.

Lemma load_one_balance env r :
  Forall (fun u => 546 <= value u) (utxos (load_one env r))
  /\ balance (load_one env r) = sum_values (utxos (load_one env r))
  /\ tracked (load_one env r) = r.
Proof.
  unfold load_one. destruct (getUtxos env (scriptAddress r)) as [e|found] eqn:H; simpl.
  - repeat split; constructor.
  - split; [apply (getUtxos_filtered _ _ _ H)|]. split; [|reflexivity].
    now rewrite foldl_sum_values.
Qed.

End FetchMore.

(** ** UTXO selection: fewest inputs, order of the input, empty selections *)

Section SelectionMore.

Implicit Types (u : Utxo) (l sel s : list Utxo) (target tot : Z).

Lemma sum_values_perm l l' : Permutation l l' -> sum_values l = sum_values l'.
Proof. induction 1; simpl; lia. Qed.

Lemma desc_trans (a b c : Utxo) : desc a b -> desc b c -> desc a c.
Proof. unfold desc. lia. Qed.

Lemma sum_take_succ (bound : Z) l (j : nat) :
  Forall (fun y => value y <= bound) l ->
  (S j <= length l)%nat ->
  sum_values (take (S j) l) <= bound + sum_values (take j l).
Proof.
  intros H. revert j. induction H as [|y l Hy Hl IH]; intros j Hj; simpl in *; [lia|].
  destruct j as [|j]; simpl; [lia|].
  specialize (IH j ltac:(lia)). simpl in IH. lia.
Qed.

Lemma sorted_head_bound x l :
  Sorted desc (x :: l) -> Forall (fun y => value y <= value x) l.
Proof.
  intros H. apply Sorted_StronglySorted in H; [|exact desc_trans].
  inversion H as [|? ? _ Hall]; subst. exact Hall.
Qed.

(** Among the sub-multisets of a list sorted in descending order, the
    prefix of the same size has the largest total. *)
Lemma prefix_total_largest l s :
  Sorted desc l -> s ⊆+ l -> sum_values s <= sum_values (take (length s) l).
Proof.
  intros Hs. revert s. induction l as [|x l IH]; intros s Hsub.
  - apply submseteq_nil_r in Hsub. subst s. reflexivity.
  - assert (Hl : Sorted desc l) by (now inversion Hs).
    apply submseteq_cons_r in Hsub as [Hsub|(s' & Hperm & Hsub)].
    + specialize (IH Hl s Hsub).
      destruct (length s) as [|j] eqn:Hlen; [now rewrite take_0 in *|].
      pose proof (submseteq_length _ _ Hsub) as Hle.
      pose proof (sum_take_succ (value x) l j (sorted_head_bound x l Hs) ltac:(lia)).
      simpl. simpl in *. lia.
    + rewrite (sum_values_perm _ _ Hperm), (Permutation_length Hperm). simpl.
      specialize (IH Hl s' Hsub). lia.
Qed.

Lemma selectUtxos_inv l target sel tot :
  selectUtxos l target = inr (sel, tot) ->
  exists k : nat,
    (k <= length (sort_desc l))%nat
    /\ sel = take k (sort_desc l)
    /\ tot = sum_values sel
    /\ target <= tot
    /\ forall j : nat, (j < k)%nat -> sum_values (take j (sort_desc l)) < target.
Proof.
  unfold selectUtxos.
  destruct (select_loop_prefix (sort_desc l) target [] 0) as (k & Hk & Heq & Hlt & _).
  simpl in Heq. rewrite Z.add_0_l in Heq. rewrite Heq.
  destruct (Z.ltb_spec (sum_values (take k (sort_desc l))) target); [discriminate|].
  intros [= <- <-]. exists k. repeat split; assumption.
Qed.

(** X5.  A successful selection is made of UTXOs of the list given, each
    used at most as often as it occurs there; the total returned is their
    sum and reaches the target; and no choice of UTXOs from the list
    reaches the target with fewer of them. *)
Theorem selectUtxos_fewest l target sel tot :
  selectUtxos l target = inr (sel, tot) ->
  sel ⊆+ l
  /\ tot = sum_values sel
  /\ target <= tot
  /\ forall s, s ⊆+ l -> target <= sum_values s -> (length sel <= length s)%nat.
Proof.
  intros H. destruct (selectUtxos_inv _ _ _ _ H) as (k & Hk & -> & -> & Hreach & Hmin).
  split; [|split; [reflexivity|split; [exact Hreach|]]].
  - rewrite (sort_desc_perm l) at 2. apply sublist_submseteq, sublist_take.
  - intros s Hsub Hs.
    rewrite length_take.
    destruct (decide (length s < k)%nat) as [Hlt|]; [|lia].
    exfalso. specialize (Hmin _ Hlt).
    assert (Hsub' : s ⊆+ sort_desc l) by (now rewrite <- (sort_desc_perm l)).
    pose proof (prefix_total_largest _ _ (sort_desc_sorted l) Hsub'). lia.
Qed.

(** From 1000, 5000 and 3000 a target of 6000 takes 5000 and 3000, and no
    single UTXO or pair does with less than two. *)
Lemma selectUtxos_fewest_witness :
  selectUtxos [mkUtxo "a" 0 1000; mkUtxo "b" 1 5000; mkUtxo "c" 0 3000] 6000
  = inr ([mkUtxo "b" 1 5000; mkUtxo "c" 0 3000], 8000)
  /\ forall s,
       s ⊆+ [mkUtxo "a" 0 1000; mkUtxo "b" 1 5000; mkUtxo "c" 0 3000] ->
       6000 <= sum_values s -> (2 <= length s)%nat.
Proof.
  split; [reflexivity|].
  exact (proj2 (proj2 (proj2
           (selectUtxos_fewest
              [mkUtxo "a" 0 1000; mkUtxo "b" 1 5000; mkUtxo "c" 0 3000] 6000
              [mkUtxo "b" 1 5000; mkUtxo "c" 0 3000] 8000 eq_refl)))).
Defined.

Lemma geZ_trans (a b c : Z) : geZ a b -> geZ b c -> geZ a c.
Proof. unfold geZ. lia. Qed.

Lemma geZ_antisym (a b : Z) : geZ a b -> geZ b a -> a = b.
Proof. unfold geZ. lia. Qed.

Lemma sorted_values l : Sorted desc l -> Sorted geZ (List.map value l).
Proof.
  induction 1 as [|x l Hs IH Hhd]; simpl; constructor; [exact IH|].
  destruct Hhd; simpl; constructor. assumption.
Qed.

(** Two lists of amounts in descending order with the same members are the
    same list. *)
Lemma sorted_amounts_unique (l1 l2 : list Z) :
  Sorted geZ l1 -> Sorted geZ l2 -> Permutation l1 l2 -> l1 = l2.
Proof.
  intros H1 H2.
  apply Sorted_StronglySorted in H1; [|exact geZ_trans].
  apply Sorted_StronglySorted in H2; [|exact geZ_trans].
  revert l2 H2. induction H1 as [|x l1 Hs1 IH Hx]; intros l2 H2 Hp.
  - apply Permutation_nil in Hp. now subst.
  - destruct H2 as [|y l2 Hs2 Hy].
    + symmetry in Hp. apply Permutation_nil in Hp. discriminate Hp.
    + assert (Hxy : x = y).
      { apply geZ_antisym.
        - assert (Hin : In y (x :: l1))
            by (apply (Permutation_in y (Permutation_sym Hp)); now left).
          destruct Hin as [->|Hin]; [unfold geZ; lia|].
          rewrite List.Forall_forall in Hx. now apply Hx.
        - assert (Hin : In x (y :: l2)) by (apply (Permutation_in x Hp); now left).
          destruct Hin as [->|Hin]; [unfold geZ; lia|].
          rewrite List.Forall_forall in Hy. now apply Hy. }
      subst y. f_equal. apply IH; [exact Hs2|].
      exact (Permutation_cons_inv Hp).
Qed.

Lemma sort_desc_values_perm l l' :
  Permutation l l' ->
  List.map value (sort_desc l) = List.map value (sort_desc l').
Proof.
  intros H. apply sorted_amounts_unique.
  - apply sorted_values, sort_desc_sorted.
  - apply sorted_values, sort_desc_sorted.
  - apply Permutation_map.
    rewrite <- (sort_desc_perm l), <- (sort_desc_perm l'). exact H.
Qed.

Lemma select_loop_values l1 l2 target sel1 sel2 tot :
  List.map value l1 = List.map value l2 ->
  List.map value sel1 = List.map value sel2 ->
  List.map value (fst (select_loop l1 target sel1 tot))
  = List.map value (fst (select_loop l2 target sel2 tot))
  /\ snd (select_loop l1 target sel1 tot) = snd (select_loop l2 target sel2 tot).
Proof.
  revert l2 sel1 sel2 tot.
  induction l1 as [|u1 l1 IH]; intros [|u2 l2] sel1 sel2 tot Hl Hsel;
    try discriminate Hl; simpl.
  - auto.
  - injection Hl as Hu Hl.
    destruct (target <=? tot); [auto|].
    rewrite Hu. apply IH; [exact Hl|].
    rewrite !List.map_app. simpl. now rewrite Hsel, Hu.
Qed.

(** X6.  The order in which the UTXOs are given does not change the outcome
    of the selection: two lists with the same members either both fail,
    with the same message, or both succeed with the same amounts in the
    same order and the same total.  (Which of two UTXOs of equal value is
    taken may differ.) *)
Theorem selectUtxos_order_independent l l' target :
  Permutation l l' ->
  match selectUtxos l target, selectUtxos l' target with
  | inr (sel, tot), inr (sel', tot') =>
      List.map value sel = List.map value sel' /\ tot = tot'
  | inl e, inl e' => e = e'
  | _, _ => False
  end.
Proof.
  intros H. unfold selectUtxos.
  destruct (select_loop_values (sort_desc l) (sort_desc l') target [] [] 0
              (sort_desc_values_perm l l' H) eq_refl) as [Hsel Htot].
  destruct (select_loop (sort_desc l) target [] 0) as [sel tot].
  destruct (select_loop (sort_desc l') target [] 0) as [sel' tot'].
  simpl in Hsel, Htot. subst tot'.
  destruct (tot <? target); [reflexivity|]. simpl. auto.
Qed.

(** Two UTXOs of 3000 given in either order: one of them is selected for a
    target of 2000, with the same amount and total. *)
Lemma selectUtxos_order_independent_witness :
  match selectUtxos [mkUtxo "a" 0 3000; mkUtxo "b" 0 3000] 2000,
        selectUtxos [mkUtxo "b" 0 3000; mkUtxo "a" 0 3000] 2000 with
  | inr (sel, tot), inr (sel', tot') =>
      List.map value sel = List.map value sel' /\ tot = tot'
  | inl e, inl e' => e = e'
  | _, _ => False
  end.
Proof.
  apply (selectUtxos_order_independent
           [mkUtxo "a" 0 3000; mkUtxo "b" 0 3000]
           [mkUtxo "b" 0 3000; mkUtxo "a" 0 3000] 2000).
  apply perm_swap.
Defined.

(** X7.  A target of zero or less is met by the empty selection with total
    0, whatever the list; and a successful selection is empty only then,
    so that a positive target, when met, is met by at least one UTXO. *)
Theorem selectUtxos_empty_selection l target :
  (target <= 0 -> selectUtxos l target = inr ([], 0))
  /\ (forall sel tot, selectUtxos l target = inr (sel, tot) ->
        (sel = [] <-> target <= 0)).
Proof.
  assert (H0 : target <= 0 -> selectUtxos l target = inr ([], 0)).
  { intros Ht. unfold selectUtxos.
    destruct (sort_desc l) as [|u s]; simpl.
    - destruct (Z.ltb_spec 0 target); [lia|reflexivity].
    - destruct (Z.leb_spec target 0); [|lia].
      destruct (Z.ltb_spec 0 target); [lia|reflexivity]. }
  split; [exact H0|].
  intros sel tot H. split.
  - intros ->. destruct (selectUtxos_inv _ _ _ _ H) as (k & _ & _ & -> & Hreach & _).
    exact Hreach.
  - intros Ht. rewrite (H0 Ht) in H. now injection H as <- <-.
Qed.

(** A target of 0 selects nothing; a target of 1 selects the UTXO. *)
Lemma selectUtxos_empty_selection_witness :
  selectUtxos [mkUtxo "a" 0 1000] 0 = inr ([], 0)
  /\ ([mkUtxo "a" 0 1000] = [] <-> 1 <= 0).
Proof.
  split.
  - apply (proj1 (selectUtxos_empty_selection [mkUtxo "a" 0 1000] 0)). lia.
  - exact (proj2 (selectUtxos_empty_selection [mkUtxo "a" 0 1000] 1)
             [mkUtxo "a" 0 1000] 1000 eq_refl).
Defined.

End SelectionMore.

(** ** The compiler on whole scripts: lines, comments, unknown opcodes *)

Section CompilerMore.

Lemma split_lines_nonempty s : split_lines s <> [].
Proof.
  destruct s as [|c s]; simpl; [discriminate|].
  destruct (is_newline c); [discriminate|].
  destruct (split_lines s); discriminate.
Qed.

Lemma split_lines_app a b :
  split_lines (a ++ newline ++ b) = (split_lines a ++ split_lines b)%list.
Proof.
  induction a as [|c a IH]; [reflexivity|].
  change (String c a ++ newline ++ b) with (String c (a ++ newline ++ b)).
  cbn [split_lines]. rewrite IH.
  destruct (is_newline c); [reflexivity|].
  pose proof (split_lines_nonempty a).
  destruct (split_lines a); [congruence|reflexivity].
Qed.

Lemma script_lines_app a b :
  script_lines (a ++ newline ++ b) = (script_lines a ++ script_lines b)%list.
Proof.
  unfold script_lines. now rewrite split_lines_app, List.map_app, List.filter_app.
Qed.

Lemma parse_lines_acc lines acc :
  parse_lines lines acc
  = match parse_lines lines [] with
    | inl e => inl e
    | inr els => inr (acc ++ els)%list
    end.
Proof.
  revert acc. induction lines as [|line rest IH]; intros acc; simpl.
  - now rewrite app_nil_r.
  - destruct (parse_line line) as [e|pushed]; simpl; [reflexivity|].
    rewrite (IH (acc ++ pushed)%list), (IH pushed).
    destruct (parse_lines rest []); [reflexivity|]. now rewrite app_assoc.
Qed.

Lemma parse_lines_app l1 l2 :
  parse_lines (l1 ++ l2) []
  = match parse_lines l1 [] with
    | inl e => inl e
    | inr els1 =>
        match parse_lines l2 [] with
        | inl e => inl e
        | inr els2 => inr (els1 ++ els2)%list
        end
    end.
Proof.
  induction l1 as [|line rest IH]; simpl.
  - now destruct (parse_lines l2 []).
  - destruct (parse_line line) as [e|pushed]; simpl; [reflexivity|].
    rewrite (parse_lines_acc (rest ++ l2)), (parse_lines_acc rest), IH.
    destruct (parse_lines rest []); [reflexivity|].
    destruct (parse_lines l2 []); [reflexivity|]. now rewrite app_assoc.
Qed.

(** X8.  Compilation goes line by line: the script made of [a], a line
    break and [b] compiles to the bytes of [a] followed by the bytes of
    [b]; when one of them is rejected the whole is, with the message of the
    first rejected part. *)
Theorem parseScript_concat a b :
  parseScript (a ++ newline ++ b)
  = match parseScript a with
    | inl e => inl e
    | inr compiled_a =>
        match parseScript b with
        | inl e => inl e
        | inr compiled_b => inr (compiled_a ++ compiled_b)%list
        end
    end.
Proof.
  unfold parseScript, parseElements. rewrite script_lines_app, parse_lines_app.
  destruct (parse_lines (script_lines a) []) as [e|ea]; [reflexivity|].
  destruct (parse_lines (script_lines b) []) as [e|eb]; [reflexivity|].
  simpl. unfold compile. now rewrite List.map_app, concat_app.
Qed.

Lemma split_lines_single c : no_newline c = true -> split_lines c = [c].
Proof.
  induction c as [|x c IH]; [reflexivity|]. simpl.
  intros [Hx Hc]%andb_true_iff. apply negb_true_iff in Hx.
  rewrite Hx, (IH Hc). reflexivity.
Qed.

Lemma comment_line_empty c :
  no_newline c = true ->
  String.eqb (trim c) "" || startsWith (trim c) "//" = true ->
  script_lines c = [].
Proof.
  intros Hc Hskip. unfold script_lines. rewrite (split_lines_single c Hc). simpl.
  apply orb_true_iff in Hskip as [H|H]; rewrite H; simpl; [reflexivity|].
  now rewrite andb_false_r.
Qed.

Lemma parseScript_lines a b :
  script_lines a = script_lines b -> parseScript a = parseScript b.
Proof. intros H. unfold parseScript, parseElements. now rewrite H. Qed.

(** X9.  A line that is blank, or whose first characters after the leading
    white space are two slashes, contributes nothing: the script compiles,
    or is rejected, exactly as it is without that line, wherever the line
    stands. *)
Theorem comment_lines_ignored a c b :
  no_newline c = true ->
  String.eqb (trim c) "" || startsWith (trim c) "//" = true ->
  parseScript (a ++ newline ++ c ++ newline ++ b) = parseScript (a ++ newline ++ b)
  /\ parseScript (c ++ newline ++ b) = parseScript b.
Proof.
  intros Hc Hskip. split; apply parseScript_lines.
  - now rewrite !script_lines_app, (comment_line_empty c Hc Hskip).
  - now rewrite script_lines_app, (comment_line_empty c Hc Hskip).
Qed.

(** A comment between two opcodes, and a blank line before one. *)
Lemma comment_lines_ignored_witness :
  parseScript ("OP_1" ++ newline ++ "  // push one more" ++ newline ++ "OP_2")
  = inr [x51; x52]
  /\ parseScript ("   " ++ newline ++ "OP_2") = inr [x52].
Proof.
  destruct (comment_lines_ignored "OP_1" "  // push one more" "OP_2"
              eq_refl eq_refl) as [H1 _].
  destruct (comment_lines_ignored "" "   " "OP_2" eq_refl eq_refl) as [_ H2].
  split; [rewrite H1|rewrite H2]; reflexivity.
Defined.

Lemma prefix_app_l n a b :
  String.prefix n a = true -> String.prefix n (a ++ b) = true.
Proof.
  revert a. induction n as [|x n IH]; intros a; [now destruct (a ++ b)|].
  destruct a as [|y a]; [discriminate|]. simpl.
  destruct (ascii_dec x y); [apply IH|discriminate].
Qed.

Lemma includes_app_l a b n : includes a n = true -> includes (a ++ b) n = true.
Proof.
  induction a as [|y a IH]; cbn [includes].
  - rewrite orb_false_r. intros H. destruct n; [|discriminate H].
    destruct b; reflexivity.
  - intros [H|H]%orb_true_iff.
    + change (String y a ++ b) with (String y (a ++ b)). cbn [includes].
      change (String y (a ++ b)) with (String y a ++ b).
      now rewrite (prefix_app_l _ _ b H).
    + change (String y a ++ b) with (String y (a ++ b)). cbn [includes].
      rewrite (IH H). apply orb_true_r.
Qed.

(** X10.  The unlock builder decides whether a script needs the wallet's
    signature from the source text, comments included: a first line that
    is a comment naming [OP_CHECKSIG] changes nothing in what the script
    compiles to, and yet makes the builder treat the script as one that
    needs signatures. *)
Theorem signature_detection_reads_comments c src (script : ScriptUtxo) :
  no_newline c = true ->
  startsWith (trim c) "//" = true ->
  includes c "OP_CHECKSIG" = true ->
  originalScript (tracked script) = c ++ newline ++ src ->
  parseScript (originalScript (tracked script)) = parseScript src
  /\ scriptNeedsSignatures script = true.
Proof.
  intros Hc Hcomment Hinc Horig. split.
  - rewrite Horig. apply parseScript_lines.
    rewrite script_lines_app, (comment_line_empty c Hc); [reflexivity|].
    rewrite Hcomment. apply orb_true_r.
  - unfold scriptNeedsSignatures. rewrite Horig.
    now rewrite (includes_app_l _ _ _ Hinc).
Qed.

(** The script [OP_1] under the comment [// no OP_CHECKSIG here]. *)
Lemma signature_detection_reads_comments_witness :
  parseScript (originalScript (tracked (Cases.commented 5000))) = parseScript "OP_1"
  /\ scriptNeedsSignatures (Cases.commented 5000) = true.
Proof.
  apply (signature_detection_reads_comments
           "// no OP_CHECKSIG here" "OP_1" (Cases.commented 5000));
    reflexivity.
Defined.

Lemma parse_line_unknown tok :
  startsWith tok "OP_" = true -> opcode tok = None ->
  parse_line tok = inl ("Unknown opcode: " ++ tok).
Proof. intros H1 H2. unfold parse_line. now rewrite H1, H2. Qed.

Lemma handler_unknown_opcode tok :
  funding_handler ("Unknown opcode: " ++ tok)
  = if includes tok "Insufficient funds"
    then "Insufficient funds. Make sure you have enough testnet Bitcoin plus fee."
    else "Script parsing error: Unknown opcode: " ++ tok.
Proof.
  unfold funding_handler.
  assert (H1 : includes ("Unknown opcode: " ++ tok) "Insufficient funds"
               = includes tok "Insufficient funds") by (cbn; reflexivity).
  rewrite H1. destruct (includes tok "Insufficient funds"); [reflexivity|].
  rewrite (includes_prefix _ "Unknown opcode") by reflexivity.
  reflexivity.
Qed.

(** X11.  A line that starts with [OP_] and is not in the opcode table
    stops the compilation at that line, whatever follows, once the lines
    before it have compiled: the compiler reports [Unknown opcode: <line>].
    The funding builder then fails before any request to the chain or the
    wallet and leaves the world as it was; it reports [Script parsing
    error: Unknown opcode: <line>], unless the line itself contains the
    words [Insufficient funds]: the handler tests for those first, and the
    report is then the one for insufficient funds. *)
Theorem unknown_opcode_rejected env src amount wallet publicKey w good els tok rest :
  script_lines src = (good ++ tok :: rest)%list ->
  parse_lines good [] = inr els ->
  startsWith tok "OP_" = true ->
  opcode tok = None ->
  parseScript src = inl ("Unknown opcode: " ++ tok)
  /\ createScriptTransaction env src amount wallet publicKey w
     = (inl (if includes tok "Insufficient funds"
             then "Insufficient funds. Make sure you have enough testnet Bitcoin plus fee."
             else "Script parsing error: Unknown opcode: " ++ tok), w).
Proof.
  intros Hlines Hgood Hop Hnone.
  assert (Hparse : parseScript src = inl ("Unknown opcode: " ++ tok)).
  { unfold parseScript, parseElements. rewrite Hlines, parse_lines_app, Hgood.
    cbn [parse_lines]. rewrite (parse_line_unknown tok Hop Hnone). reflexivity. }
  split; [exact Hparse|].
  unfold createScriptTransaction, try_catch, funding_body.
  unfold mbind, M_bind, lift. unfold funding_plan. rewrite Hparse. simpl.
  now rewrite (handler_unknown_opcode tok).
Qed.

(** [OP_NOTAREALOP] on the second of three lines, and a line that carries
    the words the handler looks for first. *)
Lemma unknown_opcode_rejected_witness :
  (parseScript ("OP_DUP" ++ newline ++ "OP_NOTAREALOP" ++ newline ++ "OP_1")
   = inl "Unknown opcode: OP_NOTAREALOP"
   /\ createScriptTransaction (Scenario.env_with [mkUtxo "cafe" 0 5000])
        ("OP_DUP" ++ newline ++ "OP_NOTAREALOP" ++ newline ++ "OP_1") 1000
        Scenario.wallet [x02] Scenario.empty_world
      = (inl "Script parsing error: Unknown opcode: OP_NOTAREALOP",
         Scenario.empty_world))
  /\ createScriptTransaction (Scenario.env_with [mkUtxo "cafe" 0 5000])
       "OP_Insufficient funds" 1000 Scenario.wallet [x02] Scenario.empty_world
     = (inl "Insufficient funds. Make sure you have enough testnet Bitcoin plus fee.",
        Scenario.empty_world).
Proof.
  split.
  - exact (unknown_opcode_rejected (Scenario.env_with [mkUtxo "cafe" 0 5000])
             ("OP_DUP" ++ newline ++ "OP_NOTAREALOP" ++ newline ++ "OP_1") 1000
             Scenario.wallet [x02] Scenario.empty_world
             ["OP_DUP"] [Op 118] "OP_NOTAREALOP" ["OP_1"]
             eq_refl eq_refl eq_refl eq_refl).
  - exact (proj2 (unknown_opcode_rejected (Scenario.env_with [mkUtxo "cafe" 0 5000])
                    "OP_Insufficient funds" 1000
                    Scenario.wallet [x02] Scenario.empty_world
                    [] [] "OP_Insufficient funds" []
                    eq_refl eq_refl eq_refl eq_refl)).
Defined.

Lemma to_hex_length b : String.length (to_hex b) = (2 * length b)%nat.
Proof. induction b as [|x b IH]; simpl; [reflexivity|]. rewrite IH. lia. Qed.

Lemma no_space_trimEnd s : no_space s = true -> trimEnd s = s.
Proof.
  induction s as [|c s IH]; [reflexivity|]. simpl.
  intros [Hc Hs]%andb_true_iff. apply negb_true_iff in Hc. rewrite (IH Hs).
  destruct s; [|reflexivity]. now rewrite Hc.
Qed.

Lemma no_space_trim s : no_space s = true -> trim s = s.
Proof.
  intros H. unfold trim.
  assert (Hs : trimStart s = s).
  { destruct s as [|c s]; [reflexivity|]. simpl in *.
    apply andb_true_iff in H as [Hc _]. apply negb_true_iff in Hc. now rewrite Hc. }
  rewrite Hs. now apply no_space_trimEnd.
Qed.

Lemma no_space_no_newline s : no_space s = true -> no_newline s = true.
Proof.
  induction s as [|c s IH]; [reflexivity|]. simpl.
  intros [Hc Hs]%andb_true_iff. rewrite (IH Hs), andb_true_r.
  apply negb_true_iff in Hc. apply negb_true_iff.
  unfold is_space in Hc. unfold is_newline.
  destruct (N.eqb_spec (N_of_ascii c) 10) as [E|]; [|reflexivity].
  rewrite E in Hc. discriminate Hc.
Qed.

(** A source made of one token: no white space, not empty, not a comment. *)
Lemma script_lines_token s :
  no_space s = true -> s <> "" -> startsWith s "//" = false ->
  script_lines s = [s].
Proof.
  intros Hs Hne Hc. unfold script_lines.
  rewrite (split_lines_single s (no_space_no_newline s Hs)). cbn [List.map].
  rewrite (no_space_trim s Hs). cbn [List.filter].
  apply String.eqb_neq in Hne. now rewrite Hne, Hc.
Qed.

Lemma to_hex_no_space b : no_space (to_hex b) = true.
Proof.
  induction b as [|x b IH]; [reflexivity|].
  cbn [to_hex no_space]. rewrite IH. destruct x; reflexivity.
Qed.

Lemma starts_with_0x h : startsWith ("0x" ++ h) "0x" = true.
Proof. unfold startsWith. simpl. now destruct h. Qed.

(** X12.  Hex literals round-trip: for every byte string, the line [0x]
    followed by its hex text (as [toString('hex')] writes it) is read by
    the compiler as that data, and by the witness builder as that very
    item; for data of 2 to 75 bytes the compiled script is the length byte
    followed by the data. *)
Theorem hex_literal_round_trip b :
  parse_line ("0x" ++ to_hex b) = inr [Data b]
  /\ witness_item ("0x" ++ to_hex b) = b
  /\ ((2 <= length b <= 75)%nat ->
      parseScript ("0x" ++ to_hex b) = inr (byte_of_Z (Z.of_nat (length b)) :: b)).
Proof.
  assert (Hline : parse_line ("0x" ++ to_hex b) = inr [Data b]).
  { rewrite hex_line_parses by apply starts_with_0x.
    change (slice 2 ("0x" ++ to_hex b)) with (to_hex b).
    rewrite to_hex_length, Buffer_from_hex_to_hex.
    replace (Z.of_nat (2 * length b) mod 2) with 0; [reflexivity|].
    rewrite Nat2Z.inj_mul, Z.mul_comm, Z.mod_mul; lia. }
  split; [exact Hline|]. split.
  - unfold witness_item. rewrite starts_with_0x. apply Buffer_from_hex_to_hex.
  - intros Hlen. unfold parseScript, parseElements.
    rewrite script_lines_token.
    + cbn [parse_lines]. rewrite Hline. simpl.
      unfold compile. simpl. rewrite app_nil_r.
      destruct b as [|x [|y b]]; simpl in Hlen; try lia.
      cbn [asMinimalOP]. unfold pushdata.
      destruct (Z.ltb_spec (Z.of_nat (length (x :: y :: b))) OP_PUSHDATA1) as [|Hge];
        [reflexivity|].
      unfold OP_PUSHDATA1 in Hge. simpl length in *. lia.
    + simpl. apply to_hex_no_space.
    + discriminate.
    + reflexivity.
Qed.

(** The two bytes ab cd. *)
Lemma hex_literal_round_trip_witness :
  parseScript "0xabcd" = inr [x02; xab; xcd]
  /\ witness_item "0xabcd" = [xab; xcd].
Proof.
  destruct (hex_literal_round_trip [xab; xcd]) as (_ & Hitem & Hscript).
  split; [apply Hscript; simpl; lia|exact Hitem].
Defined.

(** X13.  Every opcode the editor offers is an opcode of the compiler's
    table and compiles, alone on its line, to that one opcode, except
    [OP_CHECKDATASIG] and [OP_CHECKDATASIGVERIFY]: the editor lists both,
    and the compiler rejects both as unknown. *)
Theorem editor_opcodes_known_to_compiler :
  Forall (fun name =>
            name = "OP_CHECKDATASIG" \/ name = "OP_CHECKDATASIGVERIFY"
            \/ exists code, parseElements name = inr [Op code])
         Editor.ALL_OPCODES
  /\ In "OP_CHECKDATASIG" Editor.ALL_OPCODES
  /\ In "OP_CHECKDATASIGVERIFY" Editor.ALL_OPCODES
  /\ parseScript "OP_CHECKDATASIG" = inl "Unknown opcode: OP_CHECKDATASIG"
  /\ parseScript "OP_CHECKDATASIGVERIFY" = inl "Unknown opcode: OP_CHECKDATASIGVERIFY".
Proof.
  split.
  - unfold Editor.ALL_OPCODES, Editor.constants, Editor.flow, Editor.stack,
      Editor.splice, Editor.bitwise, Editor.arithmetic, Editor.crypto, Editor.locktime.
    cbn [app].
    repeat (constructor;
            [first [ left; reflexivity
                   | right; left; reflexivity
                   | right; right; eexists; vm_compute; reflexivity ]|]).
    constructor.
  - split; [vm_compute; tauto|]. split; [vm_compute; tauto|].
    split; reflexivity.
Qed.

(** X14.  Each of the four templates the builder offers (hash lock, time
    lock, multisig, puzzle) is accepted by the compiler as it stands,
    comments and placeholders included, and compiles to a script that is
    not empty. *)
Theorem templates_compile :
  Forall (fun code => exists compiled, parseScript code = inr compiled /\ compiled <> [])
         Templates.codes.
Proof.
  unfold Templates.codes.
  repeat (constructor; [eexists; split; [vm_compute; reflexivity|discriminate]|]).
  constructor.
Qed.

End CompilerMore.

(** ** The unlock builder: fee, signer, guards and the fallback path *)

Section UnlockMore.

(** X15.  The transaction the unlock builder assembles pays a fee of
    exactly 1500 sats, sponsored or not: its inputs sum to the total the
    builder computed, its only output is the final output, and the two
    differ by the estimated fee. *)
Theorem primary_fee_is_estimated_fee env script wallet asm :
  assemble env script wallet = inr asm ->
  asm_totalInput asm - asm_finalOutput asm = estimatedFee
  /\ input_total (asm_psbt asm) = asm_totalInput asm
  /\ List.map out_value (outputs (asm_psbt asm)) = [asm_finalOutput asm].
Proof.
  intros H.
  destruct (assemble_facts _ _ _ _ H)
    as (added & _ & Hv & Hsp & Hout & Htot & Hneed & Hfin & _ & _ & Hcase).
  split; [|split].
  - unfold final_output in Hfin. unfold estimatedFee, minRelayFee in *.
    destruct (needsWalletSponsorship (asm_singleUtxoValue asm)).
    + destruct Hcase as (_ & _ & _ & _ & Hest).
      destruct (Z.ltb_spec 0 (asm_walletUtxosNeeded asm)); lia.
    + subst added. simpl in *.
      destruct (Z.ltb_spec 0 (asm_walletUtxosNeeded asm)); lia.
  - rewrite input_total_values, (spends_total _ _ Hsp). simpl. lia.
  - now rewrite Hout.
Qed.

(** 400 sats at the script and 3000 in the wallet: 3400 in, 1900 out. *)
Lemma primary_fee_is_estimated_fee_witness :
  exists asm,
    assemble (Scenario.env_with [mkUtxo "cafe" 1 3000]) (Scenario.locked 400)
             Scenario.wallet = inr asm
    /\ asm_totalInput asm = 3400
    /\ asm_totalInput asm - asm_finalOutput asm = 1500.
Proof.
  destruct (assemble (Scenario.env_with [mkUtxo "cafe" 1 3000]) (Scenario.locked 400)
                     Scenario.wallet) as [e|asm] eqn:H.
  - vm_compute in H. discriminate H.
  - exists asm. split; [reflexivity|]. split.
    + vm_compute in H. now injection H as <-.
    + exact (proj1 (primary_fee_is_estimated_fee _ _ _ _ H)).
Defined.

Lemma with_signer_same sign env : same_but_signer env (Cases.with_signer sign env).
Proof.
  repeat split. unfold getPublicKey. simpl.
  now destruct (window_unisat env).
Qed.

Lemma assemble_self_funded env env' script wallet u :
  same_but_signer env env' ->
  utxos script !! 0%nat = Some u ->
  needsWalletSponsorship (value u) = false ->
  assemble env' script wallet = assemble env script wallet.
Proof.
  intros (_ & _ & _ & Hp & _ & _ & _ & Hk & _) Hu Hself.
  unfold assemble. rewrite Hk, Hp, Hu. simpl. rewrite Hself. reflexivity.
Qed.

(** X16.  An unlock that needs no sponsorship, of a script whose text names
    no signature opcode, never calls the wallet's signer: in an environment
    that gives the builder the same answers (chain, library, wallet address
    and public key) and signs differently, for instance by refusing every
    request, it returns the same result and leaves the same world. *)
Theorem self_funded_unlock_ignores_signer env env' script witnessData w u :
  same_but_signer env env' ->
  utxos script !! 0%nat = Some u ->
  needsWalletSponsorship (value u) = false ->
  scriptNeedsSignatures script = false ->
  unlockScript env' script witnessData w = unlockScript env script witnessData w.
Proof.
  intros Hsame Hu Hself Hsig.
  pose proof Hsame as (Hu1 & Ht & Hb & Hp & Hf & He & Hw & Hk & Hn).
  unfold unlockScript. rewrite Hw.
  destruct (walletAddress env) as [wallet|]; [|reflexivity].
  destruct (length (utxos script) =? 0)%nat; [reflexivity|].
  assert (Htx : unlock_transaction env' script witnessData wallet
                = unlock_transaction env script witnessData wallet).
  { unfold unlock_transaction.
    rewrite (assemble_self_funded env env' script wallet u Hsame Hu Hself).
    destruct (assemble env script wallet) as [e|asm] eqn:Hasm; [reflexivity|]. simpl.
    destruct (assemble_facts _ _ _ _ Hasm)
      as (added & Hu' & Hv & _ & _ & _ & Hneed & _ & _ & _ & Hcase).
    rewrite Hu in Hu'. injection Hu' as Hu'. rewrite <- Hu' in Hv.
    rewrite Hv, Hself in Hcase. subst added. simpl in Hneed.
    rewrite Hneed, Hsig. simpl.
    unfold fallback, finalizeInput, extractTransaction. rewrite Hf, He, Hneed. simpl.
    reflexivity. }
  unfold try_catch, unlock_body, mbind, M_bind, lift, pushTx. rewrite Htx, Hb.
  reflexivity.
Qed.

(** The self-funded unlock of 5000 sats succeeds with a signer that
    refuses every request. *)
Lemma self_funded_unlock_ignores_signer_witness :
  exists w',
    unlockScript (Cases.with_signer Cases.refusing_signer (Scenario.env_with []))
                 (Scenario.locked 5000) ["0x01"] Scenario.empty_world
    = (inr "f00d", w').
Proof.
  rewrite (self_funded_unlock_ignores_signer
             (Scenario.env_with [])
             (Cases.with_signer Cases.refusing_signer (Scenario.env_with []))
             (Scenario.locked 5000) ["0x01"] Scenario.empty_world
             (mkUtxo "beef" 0 5000)
             (with_signer_same _ _) eq_refl eq_refl eq_refl).
  eexists. vm_compute. reflexivity.
Defined.

(** X17.  Without the wallet extension, or with the wallet context not
    connected, the unlock of a script that has UTXOs stops at the public
    key: the result is [Failed to unlock script: Failed to get public key]
    and nothing is broadcast or stored.  The builder's own test for the
    extension, before the signing, therefore never fails: whenever the
    transaction has been assembled, the signer is there. *)
Theorem unlock_without_extension_fails env script witnessData w :
  (forall wallet,
      window_unisat env = None \/ isConnected env = false ->
      walletAddress env = Some wallet ->
      utxos script <> [] ->
      unlockScript env script witnessData w
      = (inl "Failed to unlock script: Failed to get public key", w))
  /\ (forall wallet asm,
        assemble env script wallet = inr asm ->
        exists sign, unisat env = Some sign).
Proof.
  split.
  - intros wallet Hext Hw Hu.
    assert (Hkey : getPublicKey env = None).
    { unfold getPublicKey. destruct Hext as [->| ->]; [reflexivity|].
      now destruct (window_unisat env). }
    unfold unlockScript. rewrite Hw.
    destruct (utxos script) as [|u0 us] eqn:Hus; [congruence|].
    change (length (u0 :: us) =? 0)%nat with false. cbv iota.
    unfold try_catch, unlock_body, mbind, M_bind, lift, unlock_transaction, assemble.
    rewrite Hkey. reflexivity.
  - intros wallet asm. unfold assemble, getPublicKey, unisat.
    destruct (window_unisat env) as [extension|]; [eauto|discriminate].
Qed.

(** The script of 5000 sats in a browser without the extension, the wallet
    address still stored; and the signer found behind an assembled
    transaction. *)
Lemma unlock_without_extension_fails_witness :
  unlockScript (Cases.without_extension (Scenario.env_with [])) (Scenario.locked 5000)
               ["0x01"] Scenario.empty_world
  = (inl "Failed to unlock script: Failed to get public key", Scenario.empty_world)
  /\ exists sign, unisat (Scenario.env_with []) = Some sign.
Proof.
  split.
  - apply (proj1 (unlock_without_extension_fails
                    (Cases.without_extension (Scenario.env_with []))
                    (Scenario.locked 5000) ["0x01"] Scenario.empty_world)
             Scenario.wallet).
    + left. reflexivity.
    + reflexivity.
    + discriminate.
  - destruct (assemble (Scenario.env_with []) (Scenario.locked 5000) Scenario.wallet)
      as [e|asm] eqn:H.
    + vm_compute in H. discriminate H.
    + exact (proj2 (unlock_without_extension_fails
                      (Scenario.env_with []) (Scenario.locked 5000) ["0x01"]
                      Scenario.empty_world) Scenario.wallet asm H).
Defined.

(** X18.  The guards of the unlock builder, in the order the code tests
    them: without a connected wallet the result is [Wallet not connected];
    with a wallet and no UTXO at the script, [No UTXOs found at this script
    address]; and when the address derived from the stored compiled script
    is not the stored address, [Failed to unlock script: Script address
    mismatch].  In the three cases the world is unchanged. *)
Theorem unlock_guards env script witnessData w :
  (walletAddress env = None ->
     unlockScript env script witnessData w = (inl "Wallet not connected", w))
  /\ (forall wallet, walletAddress env = Some wallet -> utxos script = [] ->
        unlockScript env script witnessData w
        = (inl "No UTXOs found at this script address", w))
  /\ (forall wallet key pay,
        walletAddress env = Some wallet ->
        utxos script <> [] ->
        getPublicKey env = Some key ->
        p2wsh env (Buffer_from_hex (compiledScript (tracked script))) = inr pay ->
        p2wsh_address pay <> Some (scriptAddress (tracked script)) ->
        unlockScript env script witnessData w
        = (inl "Failed to unlock script: Script address mismatch", w)).
Proof.
  split; [|split].
  - intros H. unfold unlockScript. now rewrite H.
  - intros wallet H Hu. unfold unlockScript. now rewrite H, Hu.
  - intros wallet key pay Hw Hu Hk Hp Hne.
    unfold unlockScript. rewrite Hw.
    destruct (utxos script) as [|u0 us] eqn:Hus; [congruence|].
    change (length (u0 :: us) =? 0)%nat with false. cbv iota.
    unfold try_catch, unlock_body, mbind, M_bind, lift, unlock_transaction, assemble.
    rewrite Hk, Hp. simpl.
    destruct (p2wsh_address pay) as [addr|]; [|reflexivity].
    destruct (String.eqb_spec addr (scriptAddress (tracked script))) as [->|];
      [congruence|reflexivity].
Qed.

(** A card whose address holds nothing any more. *)
Lemma unlock_guards_witness :
  unlockScript (Scenario.env_with []) Cases.emptied ["0x01"] Scenario.empty_world
  = (inl "No UTXOs found at this script address", Scenario.empty_world).
Proof.
  exact (proj1 (proj2 (unlock_guards (Scenario.env_with []) Cases.emptied ["0x01"]
                         Scenario.empty_world))
           Scenario.wallet eq_refl eq_refl).
Defined.




End UnlockMore.

(** ** The witness encoders *)

Section EncodersMore.

Lemma prefix_is_compact_size n :
  n <= 65535 -> witness_item_prefix n = compact_size n.
Proof.
  intros H. unfold witness_item_prefix, compact_size.
  destruct (n <? 253); [reflexivity|].
  destruct (Z.leb_spec n 65535); [reflexivity|lia].
Qed.

(** X20.  The three encoders of a witness stack in the unlock code agree
    where their simplifications hold.  For fewer than 253 items, the
    encoder of the primary finalizer writes what the compact-size helper
    [witnessStackToBuffer] writes as long as no item exceeds 65535 bytes,
    and the encoder of the fallback path, which writes every length on one
    byte, agrees with both as long as every item is shorter than 253
    bytes. *)
Theorem witness_encodings_agree (stack : list Buffer) :
  Z.of_nat (length stack) < 253 ->
  (Forall (fun item => Z.of_nat (length item) <= 65535) stack ->
   witness_buffer stack = witnessStackToBuffer stack)
  /\ (Forall (fun item => Z.of_nat (length item) < 253) stack ->
      fallback_witness_buffer stack = witnessStackToBuffer stack
      /\ fallback_witness_buffer stack = witness_buffer stack).
Proof.
  intros Hn.
  assert (Hcount : compact_size (Z.of_nat (length stack))
                   = [byte_of_Z (Z.of_nat (length stack))]).
  { unfold compact_size.
    destruct (Z.ltb_spec (Z.of_nat (length stack)) 253); [reflexivity|lia]. }
  assert (H1 : Forall (fun item => Z.of_nat (length item) <= 65535) stack ->
               witness_buffer stack = witnessStackToBuffer stack).
  { intros Hall. unfold witness_buffer, witnessStackToBuffer. rewrite Hcount. simpl.
    do 2 f_equal. apply List.map_ext_Forall.
    eapply Forall_impl; [exact Hall|]. intros item Hitem. simpl.
    now rewrite prefix_is_compact_size. }
  split; [exact H1|]. intros Hall.
  assert (H2 : fallback_witness_buffer stack = witnessStackToBuffer stack).
  { unfold fallback_witness_buffer, witnessStackToBuffer. rewrite Hcount. simpl.
    do 2 f_equal. apply List.map_ext_Forall.
    eapply Forall_impl; [exact Hall|]. intros item Hitem. cbv beta in Hitem. simpl.
    unfold compact_size.
    destruct (Z.ltb_spec (Z.of_nat (length item)) 253); [reflexivity|lia]. }
  split; [exact H2|]. rewrite H2, H1; [reflexivity|].
  eapply Forall_impl; [exact Hall|]. intros item Hitem. cbv beta in Hitem. lia.
Qed.

(** A stack of a one-byte item, the script and an empty item. *)
Lemma witness_encodings_agree_witness :
  fallback_witness_buffer [[x01]; [x51]; []] = [x03; x01; x01; x01; x51; x00]
  /\ fallback_witness_buffer [[x01]; [x51]; []] = witness_buffer [[x01]; [x51]; []].
Proof.
  split; [reflexivity|].
  apply (witness_encodings_agree [[x01]; [x51]; []]).
  - simpl. lia.
  - repeat constructor; simpl; lia.
Defined.

End EncodersMore.

(** ** The script list and the script card *)

Section CardMore.

(** X21.  The fee notice of a script card and the unlock builder decide
    sponsorship by different rules (the card on the balance of the address
    with a fee of 375, the builder on the first UTXO with a fee of 1500).
    For a script as the list loads it: whenever the card announces that
    the wallet will sponsor the fee, the builder does sponsor; and the card
    announces that the fee is deducted from the script funds while the
    builder in fact calls for the wallet exactly when the balance is at
    least 921 and the first UTXO is below 2046. *)
Theorem card_notice_and_builder env r u :
  utxos (load_one env r) !! 0%nat = Some u ->
  let shown := card_needsWalletSponsorship (balance (load_one env r)) in
  (shown = true -> needsWalletSponsorship (value u) = true)
  /\ (shown = false /\ needsWalletSponsorship (value u) = true
      <-> 921 <= balance (load_one env r) /\ value u < 2046).
Proof.
  intros Hu shown.
  destruct (load_one_balance env r) as (Hall & Hbal & _).
  pose proof (foldl_sum_ge _ Hall u Hu) as Hle. rewrite <- Hbal in Hle.
  unfold shown, card_needsWalletSponsorship, needsWalletSponsorship,
    card_estimatedFee, actualMinFee, estimatedFee, minRelayFee. simpl.
  destruct (Z.ltb_spec (balance (load_one env r)) 375),
           (Z.ltb_spec (balance (load_one env r) - 375) 546),
           (Z.ltb_spec (value u) 1500),
           (Z.ltb_spec (value u - 1500) 546); simpl;
    (split; [intros; first [reflexivity|discriminate|lia]|]);
    (split; [intros [? ?]; first [discriminate|lia]
            |intros [? ?]; first [lia|split; reflexivity]]).
Qed.

(** A script holding one UTXO of 1000 sats: the card announces a deduction
    from the script funds, the builder asks the wallet. *)
Lemma card_notice_and_builder_witness :
  card_needsWalletSponsorship
    (balance (load_one (Cases.chain_with_script [mkUtxo "beef" 0 1000])
                       (tracked (Scenario.locked 1000)))) = false
  /\ needsWalletSponsorship 1000 = true.
Proof.
  apply (proj2 (card_notice_and_builder
                  (Cases.chain_with_script [mkUtxo "beef" 0 1000])
                  (tracked (Scenario.locked 1000)) (mkUtxo "beef" 0 1000) eq_refl)).
  split; [vm_compute; discriminate|reflexivity].
Defined.

(** X22.  The unlock form never loses its last field: removing a field
    from a form that has fields leaves at least one, whatever the index;
    adding a field and removing the added one gives the form back. *)
Theorem witness_inputs_never_empty (witnessInputs : list string) (i : nat) :
  witnessInputs <> [] ->
  removeWitnessInput i witnessInputs <> []
  /\ addWitnessInput witnessInputs <> []
  /\ removeWitnessInput (length witnessInputs) (addWitnessInput witnessInputs)
     = witnessInputs.
Proof.
  intros Hne. split; [|split].
  - unfold removeWitnessInput.
    destruct witnessInputs as [|a [|b l]]; [congruence|discriminate|].
    simpl. destruct i as [|[|i]]; discriminate.
  - unfold addWitnessInput. destruct witnessInputs; discriminate.
  - unfold removeWitnessInput, addWitnessInput.
    destruct witnessInputs as [|a l]; [congruence|].
    rewrite length_app. simpl.
    replace (1 <? S (length l + 1))%nat with true
      by (symmetry; apply Nat.ltb_lt; lia).
    clear Hne. revert a. induction l as [|b l IH]; intros a; [reflexivity|].
    simpl. f_equal. apply IH.
Qed.

(** The form as it opens, with its single empty field. *)
Lemma witness_inputs_never_empty_witness :
  removeWitnessInput 0 [""] = [""]
  /\ removeWitnessInput 1 (addWitnessInput [""]) = [""].
Proof.
  split; [reflexivity|].
  refine (proj2 (proj2 (witness_inputs_never_empty [""] 0 _))). discriminate.
Defined.












(** X25.  The bytes the card previews and hashes for a witness field
    against the bytes the builder puts on the witness stack for it.  They
    are the same for a field without surrounding white space that is a hex
    literal, or a text that is neither a boolean keyword nor a decimal
    number.  They differ by construction for a decimal number (the builder
    encodes the number, the preview takes the digits as text), and for a
    hex literal typed after white space (the preview decodes the hex, the
    builder takes the field, white space and [0x] included, as text). *)
Theorem preview_and_witness input :
  (trim input = input ->
   startsWith input "0x" = true
   \/ (input <> "OP_TRUE" /\ input <> "1" /\ input <> "OP_FALSE" /\ input <> "0"
       /\ matches_digits input = false) ->
   preview_bytes input = witness_item input)
  /\ (matches_digits input = true -> input <> "1" -> input <> "0" ->
      witness_item input = encode (parseInt input)
      /\ preview_bytes input = Buffer_from_utf8 input)
  /\ (forall c rest, input = String c rest -> is_space c = true ->
      startsWith (trim input) "0x" = true ->
      witness_item input = Buffer_from_utf8 input
      /\ preview_bytes input = Buffer_from_hex (slice 2 (trim input))).
Proof.
  split; [|split].
  - intros Htrim Hform. unfold preview_bytes, witness_item. rewrite Htrim.
    destruct (startsWith input "0x"); [reflexivity|].
    destruct Hform as [|(H1 & H2 & H3 & H4 & Hd)]; [discriminate|].
    apply String.eqb_neq in H1, H2, H3, H4. now rewrite H1, H2, H3, H4, Hd.
  - intros Hd H1 H0.
    assert (Hall : all_digits input = true) by (destruct input; [discriminate|exact Hd]).
    split.
    + unfold witness_item. rewrite (digits_not_hex _ Hall).
      apply String.eqb_neq in H1, H0. rewrite H1, H0, Hd.
      destruct (String.eqb_spec input "OP_TRUE") as [->|]; [discriminate Hd|].
      destruct (String.eqb_spec input "OP_FALSE") as [->|]; [discriminate Hd|].
      reflexivity.
    + unfold preview_bytes. rewrite (all_digits_trim _ Hall), (digits_not_hex _ Hall).
      reflexivity.
  - intros c rest -> Hsp Hx. split.
    + destruct c as [[] [] [] [] [] [] [] []]; try discriminate Hsp; reflexivity.
    + unfold preview_bytes. now rewrite Hx.
Qed.

(** The field [300], and the field [0xabcd] typed after a space. *)
Lemma preview_and_witness_witness :
  (witness_item "300" = [x2c; x01] /\ preview_bytes "300" = [x33; x30; x30])
  /\ (witness_item " 0xabcd" = [x20; x30; x78; x61; x62; x63; x64]
      /\ preview_bytes " 0xabcd" = [xab; xcd]).
Proof.
  split.
  - refine (proj1 (proj2 (preview_and_witness "300")) eq_refl _ _); discriminate.
  - exact (proj2 (proj2 (preview_and_witness " 0xabcd")) " "%char "0xabcd"
             eq_refl eq_refl eq_refl).
Defined.

End CardMore.

(** ** The funding builder: what the planned transaction spends and pays *)

Section FundingMore.




End FundingMore.
